(** * FIR-Analysis/fir_count.py: a shallow embedding and its properties

    The scraper drives an ASP.NET postback form, walks the result pages,
    pulls one date out of every table row and counts rows per (year, month).

    Modelling decisions, valid for the whole file:
    - text is ASCII: a Python [str] is a [string] (or the [list ascii] of
      its characters); [\d] and [\s] are the ASCII members of the classes
      Python uses;
    - a parsed page (a BeautifulSoup object) is a tree of [node]s, text
      nodes and tags with an attribute dictionary;
    - Python [int] is [Z]; a [Counter] is a [gmap (Z * Z) Z], a [set] of
      strings is a [gset string];
    - an exception is a value of [exn]; code that can raise returns a
      [result]; code that talks to the network threads the state of the
      remote side explicitly. *)

From Stdlib Require Import ZArith Ascii String DecimalString.
From stdpp Require Import gmap strings list.

Local Open Scope Z_scope.

(** ** Characters and character classes *)

Definition code (c : ascii) : nat := nat_of_ascii c.

(** [\d], on ASCII. *)
Definition is_digit (c : ascii) : bool :=
  (48 <=? code c)%nat && (code c <=? 57)%nat.

(** Python's whitespace ([str.strip], [\s]), on ASCII: TAB, LF, VT, FF, CR,
    the separators FS, GS, RS, US and the space. *)
Definition is_space (c : ascii) : bool :=
  ((9 <=? code c)%nat && (code c <=? 13)%nat)
  || ((28 <=? code c)%nat && (code c <=? 32)%nat).

(** The class [[./-]]. *)
Definition is_date_sep (c : ascii) : bool :=
  (code c =? 46)%nat || (code c =? 47)%nat || (code c =? 45)%nat.

(** The class [[^']]. *)
Definition not_quote (c : ascii) : bool := negb (code c =? 39)%nat.

Definition chars (s : string) : list ascii := list_ascii_of_string s.
Definition str (l : list ascii) : string := string_of_list_ascii l.

(** ** A backtracking matcher for the fragment of [re] the program uses

    Literals, greedy bounded or unbounded repetition of a character class,
    capture groups (none nested) and concatenation.  The matcher is in
    continuation-passing style: a repetition first tries the longest run
    and gives characters back one at a time when the rest fails, which is
    the order in which Python's engine explores a greedy quantifier. *)

Inductive re :=
| Lit (l : list ascii)
| Cls (p : ascii → bool) (lo : nat) (hi : option nat)
| Grp (r : re)
| Cat (r1 r2 : re).

(** Length of the longest prefix of [s] in class [p], at most [hi] long. *)
Fixpoint run (p : ascii → bool) (hi : option nat) (s : list ascii) : nat :=
  match s with
  | [] => O
  | c :: s' =>
      if p c then
        match hi with
        | Some O => O
        | Some (S h) => S (run p (Some h) s')
        | None => S (run p None s')
        end
      else O
  end.

(** [f n], else [f (n-1)], ..., else [f lo]. *)
Fixpoint first_down {R} (f : nat → option R) (lo n : nat) : option R :=
  if (n <? lo)%nat then None
  else match f n with
       | Some r => Some r
       | None => match n with
                 | O => None
                 | S n' => first_down f lo n'
                 end
       end.

Fixpoint strip_prefix (l s : list ascii) : option (list ascii) :=
  match l, s with
  | [], _ => Some s
  | _ :: _, [] => None
  | a :: l', c :: s' => if decide (a = c) then strip_prefix l' s' else None
  end.

Fixpoint rmatch {R} (r : re) (s : list ascii) (caps : list (list ascii))
    (k : list ascii → list (list ascii) → option R) : option R :=
  match r with
  | Lit l =>
      match strip_prefix l s with
      | Some s' => k s' caps
      | None => None
      end
  | Cls p lo hi => first_down (λ j, k (drop j s) caps) lo (run p hi s)
  | Grp r1 =>
      rmatch r1 s caps
        (λ s' caps', k s' (caps' ++ [take (length s - length s') s]))
  | Cat r1 r2 => rmatch r1 s caps (λ s' caps', rmatch r2 s' caps' k)
  end.

(** [m = pattern.match(s)] followed by [m.groups()]. *)
Definition re_match_at (r : re) (s : list ascii) : option (list (list ascii)) :=
  rmatch r s [] (λ _ caps, Some caps).

(** [m = pattern.search(s)] followed by [m.groups()]: the match at the
    leftmost start position that has one. *)
Fixpoint re_search (r : re) (s : list ascii) : option (list (list ascii)) :=
  match re_match_at r s with
  | Some caps => Some caps
  | None => match s with
            | [] => None
            | _ :: s' => re_search r s'
            end
  end.

(** ** Dates *)

Definition START_YEAR : Z := 2014.
Definition END_YEAR : Z := 2025.

(** [DATE_RE = re.compile(r"(\d{1,2})[./-](\d{1,2})[./-](\d{2,4})")] *)
Definition DATE_RE : re :=
  Cat (Grp (Cls is_digit 1 (Some 2%nat)))
   (Cat (Cls is_date_sep 1 (Some 1%nat))
    (Cat (Grp (Cls is_digit 1 (Some 2%nat)))
     (Cat (Cls is_date_sep 1 (Some 1%nat))
          (Grp (Cls is_digit 2 (Some 4%nat)))))).

Inductive exn := ValueError | KeyError | RequestException.

Inductive result (A : Type) :=
| Ok (a : A)
| Raise (e : exn).
Arguments Ok {A} a.
Arguments Raise {A} e.

(** [int(s)] on the strings the program passes to it, which are runs of
    decimal digits; anything else is a [ValueError]. *)
Definition digit_val (c : ascii) : Z := Z.of_nat (code c) - 48.

Definition py_int (s : list ascii) : result Z :=
  match s with
  | [] => Raise ValueError
  | _ => if forallb is_digit s
         then Ok (fold_left (λ acc c, 10 * acc + digit_val c) s 0)
         else Raise ValueError
  end.

Record datetime := mk_datetime { year : Z; month : Z; day : Z }.

Definition is_leap (y : Z) : bool :=
  (y mod 4 =? 0) && (negb (y mod 100 =? 0) || (y mod 400 =? 0)).

Definition days_in_month (y m : Z) : Z :=
  if m =? 2 then (if is_leap y then 29 else 28)
  else if (m =? 4) || (m =? 6) || (m =? 9) || (m =? 11) then 30
  else 31.

(** [datetime(y, m, d)]: a [ValueError] outside MINYEAR..MAXYEAR, 1..12 and
    the days of the month. *)
Definition new_datetime (y m d : Z) : result datetime :=
  if (1 <=? y) && (y <=? 9999) && (1 <=? m) && (m <=? 12)
     && (1 <=? d) && (d <=? days_in_month y m)
  then Ok (mk_datetime y m d)
  else Raise ValueError.

Definition two_zero : list ascii := chars "20".

(** [extract_date_from_text]: [None] is Python's [None]. *)
Definition extract_date_from_text (text : string) : option datetime :=
  match re_search DATE_RE (chars text) with
  | Some [d; mo; y] =>
      let y := if (length y =? 2)%nat then two_zero ++ y else y in
      match py_int y with
      | Ok yi =>
          match py_int mo with
          | Ok moi =>
              match py_int d with
              | Ok di =>
                  match new_datetime yi moi di with
                  | Ok dt => Some dt
                  | Raise _ => None
                  end
              | Raise _ => None
              end
          | Raise _ => None
          end
      | Raise _ => None
      end
  | _ => None
  end.

(** ** Parsed pages *)

(** A node of the tree BeautifulSoup builds: a text node or a tag with its
    attribute dictionary and its children.  The document itself is a tag
    (named [[document]] by the library). *)
#[warnings="-register-all"] Inductive node :=
| Text (s : string)
| Tag (name : string) (attrs : gmap string string) (children : list node).

(** [tag.descendants]: every node below [n], in document order. *)
Fixpoint descendants (n : node) : list node :=
  match n with
  | Text _ => []
  | Tag _ _ cs =>
      (fix below (l : list node) : list node :=
         match l with
         | [] => []
         | c :: l' => c :: descendants c ++ below l'
         end) cs
  end.

Definition tag_attrs (n : node) : gmap string string :=
  match n with Text _ => ∅ | Tag _ a _ => a end.

Definition is_named (names : list string) (n : node) : bool :=
  match n with
  | Text _ => false
  | Tag nm _ _ => bool_decide (nm ∈ names)
  end.

(** [tag.find_all(names)] *)
Definition find_all (names : list string) (n : node) : list node :=
  filter (λ x, is_named names x) (descendants n).

(** [tag.find(name, {"id": id_})] *)
Definition find_by_id (name id_ : string) (n : node) : option node :=
  head (filter (λ x, tag_attrs x !! "id" = Some id_) (find_all [name] n)).

(** [tag.find(name)] *)
Definition find (name : string) (n : node) : option node :=
  head (find_all [name] n).

(** [tag.has_attr(key)], [tag[key]] and [tag.get(key, default)]. *)
Definition has_attr (n : node) (key : string) : bool :=
  bool_decide (is_Some (tag_attrs n !! key)).

Definition getitem (n : node) (key : string) : result string :=
  match tag_attrs n !! key with
  | Some v => Ok v
  | None => Raise KeyError
  end.

Definition get_attr (n : node) (key dflt : string) : string :=
  default dflt (tag_attrs n !! key).

(** [str.lstrip()] and [str.strip()] *)
Fixpoint lstrip (s : list ascii) : list ascii :=
  match s with
  | [] => []
  | c :: s' => if is_space c then lstrip s' else s
  end.

Definition strip (s : string) : string :=
  str (reverse (lstrip (reverse (lstrip (chars s))))).

(** [sep.join(l)] *)
Fixpoint join (sep : string) (l : list string) : string :=
  match l with
  | [] => ""
  | [x] => x
  | x :: l' => x +:+ sep +:+ join sep l'
  end.

Definition text_of (n : node) : option string :=
  match n with Text s => Some s | Tag _ _ _ => None end.

(** [tag.get_text(" ", strip=True)]: the stripped, non-empty strings below
    the tag, joined by one space. *)
Definition get_text (n : node) : string :=
  join " "
    (filter (λ s, s ≠ "")
       (strip <$> omap text_of (descendants n))).

(** ** The extractors *)

(** The helper [val] of [extract_hidden_fields].  A bs4 tag is always
    truthy, so [el and ...] only tests for [None]. *)
Definition val (soup : node) (id_ : string) : result string :=
  match find_by_id "input" id_ soup with
  | Some el => if has_attr el "value" then getitem el "value" else Ok ""
  | None => Ok ""
  end.

Definition extract_hidden_fields (soup : node) : result (gmap string string) :=
  match val soup "__VIEWSTATE" with
  | Raise e => Raise e
  | Ok vs =>
  match val soup "__VIEWSTATEGENERATOR" with
  | Raise e => Raise e
  | Ok vg =>
  match val soup "__EVENTVALIDATION" with
  | Raise e => Raise e
  | Ok ev =>
  match val soup "__LASTFOCUS" with
  | Raise e => Raise e
  | Ok lf =>
      Ok (<["__LASTFOCUS" := lf]>
          (<["__EVENTVALIDATION" := ev]>
           (<["__VIEWSTATEGENERATOR" := vg]>
            (<["__VIEWSTATE" := vs]> ∅))))
  end end end end.

(** The loop "de-duplicate while preserving order", which the program
    writes three times: [seen] is the set of keys met so far, [unique] the
    elements kept. *)
Definition unique_step {A K} `{Countable K} (key : A → K)
    (acc : gset K * list A) (x : A) : gset K * list A :=
  if decide (key x ∈ acc.1) then acc
  else ({[key x]} ∪ acc.1, acc.2 ++ [x]).

Definition unique_by {A K} `{Countable K} (key : A → K) (l : list A) : list A :=
  (foldl (unique_step key) (∅, []) l).2.

(** [parse_ps_options] *)
Definition PS_SELECT_ID : string := "ctl00_ContentPlaceHolder1_ddlPoliceStation".

Definition parse_ps_options (soup : node) : list string :=
  match find_by_id "select" PS_SELECT_ID soup with
  | None => []
  | Some sel =>
      let options :=
        filter (λ v, v ≠ "" ∧ v ≠ "0")
          ((λ opt, strip (get_attr opt "value" "")) <$> find_all ["option"] sel) in
      unique_by id options
  end.

(** [parse_fir_rows] *)
Definition parse_fir_rows (soup : node) : list (list string) :=
  match find_by_id "table" "example" soup with
  | None => []
  | Some table =>
      match find "tbody" table with
      | None => []
      | Some tbody =>
          filter (λ cols, cols ≠ [])
            ((λ tr, get_text <$> find_all ["td"] tr) <$> find_all ["tr"] tbody)
      end
  end.

(** [POSTBACK_RE]: the literal [__doPostBack(] and a quote, a group of any
    number of characters other than the quote, a quote, [\s*], a comma,
    [\s*], a quote, a second group like the first, a quote and [)]. *)
Definition POSTBACK_RE : re :=
  Cat (Lit (chars "__doPostBack('"))
   (Cat (Grp (Cls not_quote 0 None))
    (Cat (Lit (chars "'"))
     (Cat (Cls is_space 0 None)
      (Cat (Lit (chars ","))
       (Cat (Cls is_space 0 None)
        (Cat (Lit (chars "'"))
         (Cat (Grp (Cls not_quote 0 None))
              (Lit (chars "')"))))))))).

(** The body of [for source in (onclick, href)]. *)
Definition postback_of (source : string) : list (string * string) :=
  if decide (source = "") then []
  else match re_search POSTBACK_RE (chars source) with
       | Some [tgt; arg] => [(str tgt, str arg)]
       | _ => []
       end.

(** [find_postback_actions] *)
Definition find_postback_actions (soup : node) : list (string * string) :=
  let actions :=
    mbind (λ a, postback_of (get_attr a "onclick" "")
                ++ postback_of (get_attr a "href" ""))
      (find_all ["a"; "button"] soup) in
  unique_by id actions.

(** ** Configuration and the month columns *)

Definition DISTRICT_IDS : list Z := seqZ 1 38.

(** [str(n)] for an [int]. *)
Definition py_str (n : Z) : string := NilZero.string_of_int (Z.to_int n).

(** The format [{m:02d}]. *)
Definition fmt_02d (m : Z) : string :=
  let s := py_str m in
  if (String.length s <? 2)%nat then "0" +:+ s else s.

(** [MONTH_COLS], built by the two nested [for] loops. *)
Definition MONTH_COLS : list string :=
  y ← seqZ START_YEAR (END_YEAR + 1 - START_YEAR);
  m ← seqZ 1 12;
  [py_str y +:+ "-" +:+ fmt_02d m].

(** [s.split(sep)] for a one-character separator. *)
Fixpoint split_on (sep : ascii) (s : list ascii) : list (list ascii) :=
  match s with
  | [] => [[]]
  | c :: s' =>
      if decide (c = sep) then [] :: split_on sep s'
      else match split_on sep s' with
           | [] => [[c]]
           | w :: ws => (c :: w) :: ws
           end
  end.

(** [y, m = map(int, col.split("-"))] *)
Definition parse_col (col : string) : result (Z * Z) :=
  match split_on "-"%char (chars col) with
  | [a; b] =>
      match py_int a with
      | Ok y => match py_int b with
                | Ok m => Ok (y, m)
                | Raise e => Raise e
                end
      | Raise e => Raise e
      end
  | _ => Raise ValueError
  end.

(** ** Counters *)

(** [counts[k]] and [counts.get(k, 0)] agree on a [Counter]: a missing key
    reads as zero. *)
Definition count_of (counts : gmap (Z * Z) Z) (k : Z * Z) : Z :=
  default 0 (counts !! k).

(** [counts[k] += 1] *)
Definition incr (k : Z * Z) (counts : gmap (Z * Z) Z) : gmap (Z * Z) Z :=
  <[k := count_of counts k + 1]> counts.

Definition in_year_range (dt : datetime) : bool :=
  (START_YEAR <=? year dt) && (year dt <=? END_YEAR).

(** [for cell in cols: ...; break], the inner loop of the aggregation. *)
Fixpoint scan_cells (cols : list string) (counts : gmap (Z * Z) Z)
    : gmap (Z * Z) Z :=
  match cols with
  | [] => counts
  | cell :: rest =>
      match extract_date_from_text cell with
      | Some dt =>
          if in_year_range dt then incr (year dt, month dt) counts
          else scan_cells rest counts
      | None => scan_cells rest counts
      end
  end.

(** [for cols in rows: ...], which the program writes once for the first
    page and once in the page loop. *)
Definition count_rows (rows : list (list string)) (counts : gmap (Z * Z) Z)
    : gmap (Z * Z) Z :=
  foldl (λ c cols, scan_cells cols c) counts rows.

(** [needle in hay] for strings. *)
Fixpoint contains (needle hay : list ascii) : bool :=
  match strip_prefix needle hay with
  | Some _ => true
  | None => match hay with
            | [] => false
            | _ :: hay' => contains needle hay'
            end
  end.

Definition is_page_action (ta : string * string) : bool :=
  contains (chars "Page$") (chars ta.2).

(** Output rows mix integers and strings. *)
Inductive field :=
| FInt (z : Z)
| FStr (s : string).

Definition zero_counts : list field := replicate (length MONTH_COLS) (FInt 0).

(** ** The crawl, against an arbitrary remote side

    [St] is the state of everything behind the session (server, network).
    [http_get] stands for [s.get(BASE_URL)], [raise_for_status] and the
    parse of the body; [http_post payload] for the same with [s.post].  Each
    either yields the parsed page or raises, and moves the remote state.
    The random sleeps have no effect on results and are left out. *)

Definition M (St A : Type) : Type := St → result A * St.

Definition ret {St A} (a : A) : M St A := λ st, (Ok a, st).

Definition bind {St A B} (m : M St A) (k : A → M St B) : M St B :=
  λ st, match m st with
        | (Ok a, st') => k a st'
        | (Raise e, st') => (Raise e, st')
        end.

Definition lift {St A} (r : result A) : M St A := λ st, (r, st).

(** [try: m / except Exception: h] *)
Definition try_except {St A} (m : M St A) (h : M St A) : M St A :=
  λ st, match m st with
        | (Ok a, st') => (Ok a, st')
        | (Raise _, st') => h st'
        end.

Notation "x <~ m ;; k" := (bind m (λ x, k))
  (at level 100, m at next level, right associativity).

Definition hget (hidden : gmap string string) (key : string) : string :=
  default "" (hidden !! key).

(** The four hidden fields every payload echoes. *)
Definition state_fields (hidden : gmap string string) : list (string * string) :=
  [("__LASTFOCUS", hget hidden "__LASTFOCUS");
   ("__VIEWSTATE", hget hidden "__VIEWSTATE");
   ("__VIEWSTATEGENERATOR", hget hidden "__VIEWSTATEGENERATOR");
   ("__EVENTVALIDATION", hget hidden "__EVENTVALIDATION")].

Definition DDL_DISTRICT : string := "ctl00$ContentPlaceHolder1$ddlDistrict".
Definition DDL_PS : string := "ctl00$ContentPlaceHolder1$ddlPoliceStation".
Definition RADIOS : string := "ctl00$ContentPlaceHolder1$optionsRadios".
Definition TXT_SEARCH : string := "ctl00$ContentPlaceHolder1$txtSearchBy".
Definition BTN_SEARCH : string := "ctl00$ContentPlaceHolder1$btnSearch".

(** The district postback; [radio] is [radioPetioner] in
    [get_ps_for_district] and [radioFIR] in [fetch_counts_for_ps]. *)
Definition payload_district (hidden : gmap string string) (district_id : Z)
    (radio : string) : gmap string string :=
  list_to_map
    ([("__EVENTTARGET", DDL_DISTRICT); ("__EVENTARGUMENT", "")]
     ++ state_fields hidden
     ++ [(DDL_DISTRICT, py_str district_id); (DDL_PS, "0");
         (RADIOS, radio); (TXT_SEARCH, "")]).

(** [payload2] *)
Definition payload_search (hidden2 : gmap string string) (district_id : Z)
    (ps_id : string) : gmap string string :=
  list_to_map
    ([("__EVENTTARGET", ""); ("__EVENTARGUMENT", "")]
     ++ state_fields hidden2
     ++ [(DDL_DISTRICT, py_str district_id); (DDL_PS, ps_id);
         (RADIOS, "radioFIR"); (TXT_SEARCH, ""); (BTN_SEARCH, "Search")]).

(** [payload_page] *)
Definition payload_page (hidden_res : gmap string string) (district_id : Z)
    (ps_id tgt arg : string) : gmap string string :=
  list_to_map
    ([("__EVENTTARGET", tgt); ("__EVENTARGUMENT", arg)]
     ++ state_fields hidden_res
     ++ [(DDL_DISTRICT, py_str district_id); (DDL_PS, ps_id);
         (RADIOS, "radioFIR"); (TXT_SEARCH, "")]).

Section crawl.
Context {St : Type}.
Context (http_get : M St node).
Context (http_post : gmap string string → M St node).

(** [do_post] *)
Definition do_post (payload : gmap string string)
    : M St (node * gmap string string) :=
  soup <~ http_post payload ;;
  hidden <~ lift (extract_hidden_fields soup) ;;
  ret (soup, hidden).

(** [get_ps_for_district] *)
Definition get_ps_for_district (district_id : Z) : M St (list string) :=
  soup <~ http_get ;;
  hidden <~ lift (extract_hidden_fields soup) ;;
  p <~ do_post (payload_district hidden district_id "radioPetioner") ;;
  let '(soup2, hidden2) := p in
  ret (parse_ps_options soup2).

(** The loop [for tgt, arg in ordered_page_actions] with its two loop
    variables, the latest hidden fields and the counter. *)
Fixpoint walk_pages (district_id : Z) (ps_id : string)
    (actions : list (string * string)) (hidden_res : gmap string string)
    (counts : gmap (Z * Z) Z) : M St (gmap (Z * Z) Z) :=
  match actions with
  | [] => ret counts
  | (tgt, arg) :: rest =>
      λ st,
        match do_post (payload_page hidden_res district_id ps_id tgt arg) st with
        | (Raise _, st') =>
            (* except Exception: continue *)
            walk_pages district_id ps_id rest hidden_res counts st'
        | (Ok (soup_page, hidden_page), st') =>
            walk_pages district_id ps_id rest hidden_page
              (count_rows (parse_fir_rows soup_page) counts) st'
        end
  end.

(** [ordered_page_actions], computed from the first result page. *)
Definition ordered_page_actions (soup_res : node) : list (string * string) :=
  let actions := find_postback_actions soup_res in
  let page_actions := filter (λ ta, is_page_action ta) actions in
  unique_by snd page_actions.

(** [fetch_counts_for_ps] *)
Definition fetch_counts_for_ps (district_id : Z) (ps_id : string)
    : M St (gmap (Z * Z) Z) :=
  soup <~ http_get ;;
  hidden <~ lift (extract_hidden_fields soup) ;;
  p <~ do_post (payload_district hidden district_id "radioFIR") ;;
  let '(soup2, hidden2) := p in
  λ st,
    match do_post (payload_search hidden2 district_id ps_id) st with
    | (Raise _, st') => (Ok ∅, st')
    | (Ok (soup_res, hidden_res), st') =>
        let counts := count_rows (parse_fir_rows soup_res) ∅ in
        walk_pages district_id ps_id (ordered_page_actions soup_res)
          hidden_res counts st'
    end.

(** The loop [for col in MONTH_COLS] of [worker_ps]. *)
Fixpoint month_values (cols : list string) (counts : gmap (Z * Z) Z)
    : result (list field) :=
  match cols with
  | [] => Ok []
  | col :: rest =>
      match parse_col col with
      | Raise e => Raise e
      | Ok (y, m) =>
          match month_values rest counts with
          | Raise e => Raise e
          | Ok vs => Ok (FInt (default 0 (counts !! (y, m))) :: vs)
          end
      end
  end.

(** [worker_ps] *)
Definition worker_ps (args : Z * string) : M St (list field) :=
  let '(district_id, ps_id) := args in
  counts <~ try_except (fetch_counts_for_ps district_id ps_id) (ret ∅) ;;
  vs <~ lift (month_values MONTH_COLS counts) ;;
  ret ([FInt district_id; FStr ps_id] ++ vs).

(** The rows [main] writes for one district.  The pool is modelled by
    the schedule that runs the tasks one after the other in submission
    order; [fut.result()] re-raises what the task raised. *)
Fixpoint run_tasks (tasks : list (Z * string)) : St → list (list field) * St :=
  match tasks with
  | [] => λ st, ([], st)
  | t :: rest =>
      λ st,
        let '(r, st1) := worker_ps t st in
        let row := match r with
                   | Ok row => row
                   | Raise _ => [FInt t.1; FStr t.2] ++ zero_counts
                   end in
        let '(rows, st2) := run_tasks rest st1 in
        (row :: rows, st2)
  end.

Definition district_rows (district_id : Z) : St → list (list field) * St :=
  λ st,
    let '(ps_list, st1) :=
      match get_ps_for_district district_id st with
      | (Ok l, st1) => (l, st1)
      | (Raise _, st1) => ([], st1)
      end in
    match ps_list with
    | [] => ([[FInt district_id; FStr ""] ++ zero_counts], st1)
    | _ => run_tasks ((λ ps_id, (district_id, ps_id)) <$> ps_list) st1
    end.

Fixpoint all_districts (ds : list Z) : St → list (list field) * St :=
  match ds with
  | [] => λ st, ([], st)
  | d :: rest =>
      λ st,
        let '(rows, st1) := district_rows d st in
        let '(rows', st2) := all_districts rest st1 in
        (rows ++ rows', st2)
  end.

Definition header : list field :=
  [FStr "district_id"; FStr "ps_id"] ++ (FStr <$> MONTH_COLS).

(** [main]: the rows of the CSV file, the header first. *)
Definition main : St → list (list field) * St :=
  λ st,
    let '(rows, st') := all_districts DISTRICT_IDS st in
    (header :: rows, st').
End crawl.

(** ** Remote sides used to observe and to test the crawl *)

Inductive request :=
| GET
| POST (payload : gmap string string).

(** Any remote side, with a log of the requests it received. *)
Definition log_get {St} (http_get : M St node) : M (St * list request) node :=
  λ sl, let '(r, st') := http_get sl.1 in (r, (st', sl.2 ++ [GET])).

Definition log_post {St} (http_post : gmap string string → M St node)
    (payload : gmap string string) : M (St * list request) node :=
  λ sl, let '(r, st') := http_post payload sl.1 in
        (r, (st', sl.2 ++ [POST payload])).

(** The [__EVENTARGUMENT]s of the page-turn postbacks in a log. *)
Definition event_argument (r : request) : option string :=
  match r with
  | GET => None
  | POST payload => payload !! "__EVENTARGUMENT"
  end.

Definition page_turns (log : list request) : list string :=
  filter (λ a, contains (chars "Page$") (chars a) = true)
    (omap event_argument log).

(** Pages for tests: a results table and a pager. *)
Definition td (text : string) : node := Tag "td" ∅ [Text text].
Definition tr (cells : list string) : node := Tag "tr" ∅ (td <$> cells).
Definition results_table (rows : list (list string)) : node :=
  Tag "table" {["id" := "example"]} [Tag "tbody" ∅ (tr <$> rows)].
Definition page_link (arg : string) : node :=
  Tag "a" {["href" := "javascript:__doPostBack('ctl00$grid','" +:+ arg +:+ "')"]}
    [Text arg].
Definition result_page (rows : list (list string)) (args : list string) : node :=
  Tag "[document]" ∅ (results_table rows :: (page_link <$> args)).
Definition blank_page : node := Tag "[document]" ∅ [].

(** A remote side that answers the requests of one session from a script,
    one entry per request, and fails when the script is over. *)
Definition replay : M (list (result node)) node :=
  λ script, match script with
            | [] => (Raise RequestException, [])
            | r :: script' => (r, script')
            end.

(** A remote side with a result set of three pages, each page linking only
    to the next one: [Page$2] is offered on the first page, [Page$3] on the
    second, nothing on the third. *)
Definition chain_page (arg : string) : node :=
  if decide (arg = "Page$2") then result_page [["2"; "02/02/2021"]] ["Page$3"]
  else if decide (arg = "Page$3") then result_page [["3"; "03/03/2021"]] []
  else result_page [["1"; "01/01/2021"]] ["Page$2"].

Definition chain_get : M unit node := ret blank_page.

(** Pages for tests: a form with its hidden fields and the station list. *)
Definition hidden_input (id_ value : string) : node :=
  Tag "input" {["id" := id_; "type" := "hidden"; "value" := value]} [].
Definition ps_option (value label : string) : node :=
  Tag "option" {["value" := value]} [Text label].
Definition ps_select (options : list node) : node :=
  Tag "select" {["id" := PS_SELECT_ID]} options.
Definition form_page : node :=
  Tag "[document]" ∅
    [hidden_input "__VIEWSTATE" "dDwtMTA4";
     Tag "input" {["id" := "__EVENTVALIDATION"]} [];
     ps_select [ps_option "0" "--Select--"; ps_option " 12 " "Kotwali";
                Tag "option" ∅ [Text "none"]; ps_option "7" "Sadar";
                ps_option "12" "Kotwali again"]].

Definition chain_post (payload : gmap string string) : M unit node :=
  match payload !! "__EVENTTARGET" with
  | Some "" => ret (chain_page "")
  | Some "ctl00$grid" => ret (chain_page (default "" (payload !! "__EVENTARGUMENT")))
  | _ => ret form_page
  end.


(** ** Specification-side definitions *)

(** The words a pattern matches, captures aside. *)
Inductive re_lang : re → list ascii → Prop :=
| lang_lit l : re_lang (Lit l) l
| lang_cls p lo hi w :
    forallb p w = true →
    (lo ≤ length w)%nat →
    (∀ h, hi = Some h → (length w ≤ h)%nat) →
    re_lang (Cls p lo hi) w
| lang_grp r w : re_lang r w → re_lang (Grp r) w
| lang_cat r1 r2 w1 w2 :
    re_lang r1 w1 → re_lang r2 w2 → re_lang (Cat r1 r2) (w1 ++ w2).

(** A match of the date pattern starts at the head of [s]. *)
Definition date_starts (s : list ascii) : Prop :=
  ∃ w rest, s = w ++ rest ∧ re_lang DATE_RE w.

(** The value of a run of decimal digits. *)
Definition digits_value (w : list ascii) : Z :=
  fold_left (λ acc c, 10 * acc + digit_val c) w 0.

(** The year a matched year string stands for: two digits are a year of
    the century 2000. *)
Definition year_value (y : list ascii) : Z :=
  if (length y =? 2)%nat then 2000 + digits_value y else digits_value y.

Definition valid_date (y m d : Z) : Prop :=
  1 ≤ y ≤ 9999 ∧ 1 ≤ m ≤ 12 ∧ 1 ≤ d ≤ days_in_month y m.

(** What the leftmost match [d], [mo], [y] of a text is: the text splits
    into [pre], the three digit runs with their separators and [suf]; the
    year run is as long as the pattern allows; no match starts inside
    [pre]. *)
Record leftmost_date (text : string) (pre d mo y suf : list ascii) : Prop := {
  ld_split : ∃ s1 s2, chars text = pre ++ d ++ s1 :: mo ++ s2 :: y ++ suf
                      ∧ is_date_sep s1 = true ∧ is_date_sep s2 = true;
  ld_day : forallb is_digit d = true ∧ (1 ≤ length d ≤ 2)%nat;
  ld_month : forallb is_digit mo = true ∧ (1 ≤ length mo ≤ 2)%nat;
  ld_year : forallb is_digit y = true ∧ (2 ≤ length y ≤ 4)%nat;
  ld_greedy : length y = 4%nat ∨ ∀ c rest, suf = c :: rest → is_digit c = false;
  ld_first : ∀ pre' s', chars text = pre' ++ s' →
               (length pre' < length pre)%nat → ¬ date_starts s'
}.

(** The date pattern as the prose has it, with a year of exactly [n]
    digits; the prose allows [n = 2] and [n = 4] only. *)
Definition date_re_year (n : nat) : re :=
  Cat (Grp (Cls is_digit 1 (Some 2%nat)))
   (Cat (Cls is_date_sep 1 (Some 1%nat))
    (Cat (Grp (Cls is_digit 1 (Some 2%nat)))
     (Cat (Cls is_date_sep 1 (Some 1%nat))
          (Grp (Cls is_digit n (Some n)))))).

Definition match_2_or_4 (s : list ascii) : option (list (list ascii)) :=
  match re_match_at (date_re_year 4) s with
  | Some g => Some g
  | None => re_match_at (date_re_year 2) s
  end.

Fixpoint search_2_or_4 (s : list ascii) : option (list (list ascii)) :=
  match match_2_or_4 s with
  | Some g => Some g
  | None => match s with
            | [] => None
            | _ :: s' => search_2_or_4 s'
            end
  end.

(** The extractor of the prose: the date of the first substring with a day
    and a month of one or two digits and a year of two or four digits. *)
Definition extract_date_2_or_4 (text : string) : option datetime :=
  match search_2_or_4 (chars text) with
  | Some [d; mo; y] =>
      match new_datetime (year_value y) (digits_value mo) (digits_value d) with
      | Ok dt => Some dt
      | Raise _ => None
      end
  | _ => None
  end.

(** No match of [r] starts at any of the first [n] positions of [s]. *)
Definition no_match_before (r : re) (n : nat) (s : list ascii) : bool :=
  forallb (λ i, bool_decide (re_match_at r (drop i s) = None)) (seq 0 n).

(** The bucket a cell counts for: its first match must be a calendar date
    with a year in the configured range. *)
Definition cell_bucket (cell : string) : option (Z * Z) :=
  match extract_date_from_text cell with
  | Some dt => if in_year_range dt then Some (year dt, month dt) else None
  | None => None
  end.

(** The bucket a row counts for: that of its first cell that has one. *)
Fixpoint row_bucket (cols : list string) : option (Z * Z) :=
  match cols with
  | [] => None
  | cell :: rest =>
      match cell_bucket cell with
      | Some b => Some b
      | None => row_bucket rest
      end
  end.

(** The row scan of the prose: the scan ends at the first cell in which
    the pattern matches at all, whether or not that match is counted. *)
Fixpoint scan_cells_first_match (cols : list string)
    (counts : gmap (Z * Z) Z) : gmap (Z * Z) Z :=
  match cols with
  | [] => counts
  | cell :: rest =>
      match re_search DATE_RE (chars cell) with
      | Some _ =>
          match cell_bucket cell with
          | Some b => incr b counts
          | None => counts
          end
      | None => scan_cells_first_match rest counts
      end
  end.

(** The de-duplication loop from a given [seen] set, as a recursion on the
    input. *)
Fixpoint fresh_from {A K} `{Countable K} (key : A → K) (seen : gset K)
    (l : list A) : list A :=
  match l with
  | [] => []
  | x :: l' =>
      if decide (key x ∈ seen) then fresh_from key seen l'
      else x :: fresh_from key ({[key x]} ∪ seen) l'
  end.

(** The [value] attributes of the options below a [select], stripped, in
    document order; an option without the attribute gives the empty
    string. *)
Definition option_values (sel : node) : list string :=
  (λ opt, strip (get_attr opt "value" "")) <$> find_all ["option"] sel.

(** The names of the four hidden state fields. *)
Definition HIDDEN_IDS : list string :=
  ["__VIEWSTATE"; "__VIEWSTATEGENERATOR"; "__EVENTVALIDATION"; "__LASTFOCUS"].

(** A hidden field is missing from a page when no [input] has its id, or
    when the first one that has it carries no [value]. *)
Definition field_missing (soup : node) (id_ : string) : Prop :=
  match find_by_id "input" id_ soup with
  | None => True
  | Some el => tag_attrs el !! "value" = None
  end.

(** A page whose results table has rows but no [tbody]. *)
Definition bodyless_page : node :=
  Tag "[document]" ∅ [Tag "table" {["id" := "example"]} [tr ["1"; "01/01/2021"]]].

(** The (year, month) buckets, in the order of the month columns. *)
Definition BUCKETS : list (Z * Z) :=
  y ← seqZ START_YEAR (END_YEAR + 1 - START_YEAR);
  m ← seqZ 1 12;
  [(y, m)].

(** How many of the rows count for bucket [b]. *)
Definition rows_in_bucket (b : Z * Z) (rows : list (list string)) : Z :=
  Z.of_nat (length (filter (λ r, row_bucket r = Some b) rows)).

(** A script for one session: the form, the station list, a first result
    page that offers two further pages, a failure of the first page turn,
    and the page the second page turn leads to. *)
Definition failing_script : list (result node) :=
  [Ok blank_page;
   Ok form_page;
   Ok (result_page [["1"; "01/01/2021"]] ["Page$2"; "Page$3"]);
   Raise RequestException;
   Ok (result_page [["3"; "03/03/2021"]] [])].

(** A page the remote side answered some postback with. *)
Definition answered {St} (http_post : gmap string string → M St node)
    (page : node) : Prop :=
  ∃ payload st st', http_post payload st = (Ok page, st').

(** A count row of district [d]: the district, a station identifier
    (empty for the row of a district without stations) and, per bucket in
    column order, the number of rows of [pages] that count for it. *)
Definition count_row_of (d : Z) (ps : string) (pages : list node)
    : list field :=
  [FInt d; FStr ps]
  ++ ((λ b, FInt (rows_in_bucket b (pages ≫= parse_fir_rows))) <$> BUCKETS).

(** A result page whose pager offers the argument [Page$2] under two
    targets, [Page$3] once and an action that is no page turn. *)
Definition postback_link (tgt arg : string) : node :=
  Tag "a"
    {["href" := "javascript:__doPostBack('" +:+ tgt +:+ "','" +:+ arg +:+ "')"]}
    [Text arg].
Definition dup_page : node :=
  Tag "[document]" ∅
    [results_table [["1"; "01/01/2021"]];
     postback_link "gridA" "Page$2"; postback_link "lnk" "Sort$date";
     postback_link "gridB" "Page$2"; postback_link "gridA" "Page$3";
     postback_link "gridA" "Page$2"].

(** * Properties *)

(** ** The matcher *)

Lemma first_down_some {R} (f : nat → option R) lo n r :
  first_down f lo n = Some r → ∃ j, (lo ≤ j ≤ n)%nat ∧ f j = Some r.
Proof.
  induction n as [|n IH]; simpl.
  - destruct (0 <? lo)%nat eqn:E; [done|].
    apply Nat.ltb_ge in E. destruct (f 0%nat) eqn:F; [|done].
    intros [= <-]. exists 0%nat. split; [lia | done].
  - destruct (S n <? lo)%nat eqn:E; [done|].
    apply Nat.ltb_ge in E. destruct (f (S n)) eqn:F.
    + intros [= <-]. exists (S n). split; [lia | done].
    + intros H. destruct (IH H) as (j & Hj & Hf). exists j. split; [lia | done].
Qed.

Lemma first_down_top {R} (f : nat → option R) lo n r :
  (lo ≤ n)%nat → f n = Some r → first_down f lo n = Some r.
Proof.
  intros Hlo Hf. destruct n; simpl.
  - destruct (0 <? lo)%nat eqn:E; [apply Nat.ltb_lt in E; lia|]. by rewrite Hf.
  - destruct (S n <? lo)%nat eqn:E; [apply Nat.ltb_lt in E; lia|]. by rewrite Hf.
Qed.

Lemma run_take p hi s : forallb p (take (run p hi s) s) = true.
Proof.
  revert hi. induction s as [|c s IH]; intros hi; simpl; [done|].
  destruct (p c) eqn:E; [|done].
  destruct hi as [[|h]|]; simpl; [done| |]; rewrite E; simpl; apply IH.
Qed.

Lemma run_le p h s : (run p (Some h) s ≤ h)%nat.
Proof.
  revert h. induction s as [|c s IH]; intros h; simpl; [lia|].
  destruct (p c); [|lia]. destruct h; [lia|]. specialize (IH h). lia.
Qed.

Lemma run_le_length p hi s : (run p hi s ≤ length s)%nat.
Proof.
  revert hi. induction s as [|c s IH]; intros hi; simpl; [lia|].
  destruct (p c); [|lia].
  destruct hi as [[|h]|]; [lia| |]; [specialize (IH (Some h)) | specialize (IH None)]; lia.
Qed.

Lemma forallb_take {A} (p : A → bool) n (l : list A) :
  forallb p l = true → forallb p (take n l) = true.
Proof.
  revert n. induction l as [|x l IH]; intros [|n]; simpl; try done.
  intros [Hx Hl]%andb_prop. rewrite Hx. simpl. by apply IH.
Qed.

Lemma strip_prefix_some l s s' : strip_prefix l s = Some s' → s = l ++ s'.
Proof.
  revert s. induction l as [|a l IH]; intros [|c s]; simpl; try done.
  - by intros [= ->].
  - by intros [= ->].
  - destruct (decide (a = c)) as [->|]; [|done]. intros H. by rewrite (IH _ H).
Qed.

Lemma strip_prefix_app l s : strip_prefix l (l ++ s) = Some s.
Proof.
  induction l as [|a l IH]; simpl; [by destruct s|].
  destruct (decide (a = a)); [done | congruence].
Qed.

(** Whatever the matcher accepts is a word of the pattern followed by a
    rest on which the continuation succeeded. *)
Lemma rmatch_sound {R} r : ∀ s caps (k : list ascii → list (list ascii) → option R) res,
  rmatch r s caps k = Some res →
  ∃ w s' caps', s = w ++ s' ∧ re_lang r w ∧ k s' caps' = Some res.
Proof.
  induction r as [l|p lo hi|r IH|r1 IH1 r2 IH2]; intros s caps k res; simpl.
  - destruct (strip_prefix l s) as [s'|] eqn:E; [|done].
    intros Hk. exists l, s', caps. split; [by apply strip_prefix_some|].
    split; [constructor | done].
  - intros (j & Hj & Hk)%first_down_some.
    exists (take j s), (drop j s), caps. split; [by rewrite take_drop|].
    split; [|done].
    assert (Hlen : length (take j s) = j).
    { rewrite length_take. pose proof (run_le_length p hi s). lia. }
    constructor.
    + replace (take j s) with (take j (take (run p hi s) s)).
      * apply forallb_take, run_take.
      * rewrite take_take. f_equal. lia.
    + lia.
    + intros h ->. pose proof (run_le p h s). lia.
  - intros H. apply IH in H as (w & s' & caps' & -> & Hw & Hk).
    exists w, s', (caps' ++ [take (length (w ++ s') - length s') (w ++ s')]).
    split; [done|]. split; [by constructor | done].
  - intros H. apply IH1 in H as (w1 & s1 & caps1 & -> & Hw1 & H).
    apply IH2 in H as (w2 & s2 & caps2 & -> & Hw2 & Hk).
    exists (w1 ++ w2), s2, caps2. rewrite <- app_assoc.
    split; [done|]. split; [by constructor | done].
Qed.

Lemma re_match_at_sound r s caps :
  re_match_at r s = Some caps → ∃ w rest, s = w ++ rest ∧ re_lang r w.
Proof.
  intros (w & s' & _ & -> & Hw & _)%rmatch_sound. by exists w, s'.
Qed.

(** A search that succeeds found a word of the pattern somewhere. *)
Lemma re_search_sound r s caps :
  re_search r s = Some caps →
  ∃ pre w rest, s = pre ++ w ++ rest ∧ re_lang r w.
Proof.
  induction s as [|c s IH]; simpl.
  - destruct (re_match_at r []) eqn:E; [|done]. intros _.
    apply re_match_at_sound in E as (w & rest & -> & Hw). by exists [], w, rest.
  - destruct (re_match_at r (c :: s)) eqn:E.
    + intros _. apply re_match_at_sound in E as (w & rest & -> & Hw).
      by exists [], w, rest.
    + intros (pre & w & rest & -> & Hw)%IH. by exists (c :: pre), w, rest.
Qed.

Lemma re_search_here r s caps :
  re_match_at r s = Some caps → re_search r s = Some caps.
Proof. intros H. destruct s; simpl; by rewrite H. Qed.

Lemma run_exact p h w rest :
  forallb p w = true →
  (length w ≤ h)%nat →
  (length w = h ∨ ∀ c r, rest = c :: r → p c = false) →
  run p (Some h) (w ++ rest) = length w.
Proof.
  revert h. induction w as [|a w IH]; intros h Hw Hh Hnext; simpl.
  - destruct rest as [|c r]; [done|]. simpl.
    destruct (p c) eqn:E; [|done].
    destruct Hnext as [<-|Hn]; [done|]. rewrite (Hn c r) in E; done.
  - simpl in Hw. apply andb_prop in Hw as [-> Hw].
    destruct h as [|h]; simpl in Hh; [lia|].
    f_equal. apply IH; [done | lia |].
    destruct Hnext as [Hl|Hn]; [left; simpl in Hl; lia | by right].
Qed.

(** A greedy class run in a group, when the continuation takes the longest
    run: nothing is given back. *)
Lemma rmatch_grp_cls {R} p lo h w rest caps
    (k : list ascii → list (list ascii) → option R) res :
  forallb p w = true →
  (lo ≤ length w ≤ h)%nat →
  (length w = h ∨ ∀ c r, rest = c :: r → p c = false) →
  k rest (caps ++ [w]) = Some res →
  rmatch (Grp (Cls p lo (Some h))) (w ++ rest) caps k = Some res.
Proof.
  intros Hw Hlen Hnext Hk. simpl.
  rewrite run_exact by (done || lia).
  apply first_down_top; [lia|].
  rewrite drop_app_length.
  replace (length (w ++ rest) - length rest)%nat with (length w)
    by (rewrite length_app; lia).
  by rewrite take_app_length.
Qed.

Lemma rmatch_one {R} p c rest caps
    (k : list ascii → list (list ascii) → option R) res :
  p c = true →
  k rest caps = Some res →
  rmatch (Cls p 1 (Some 1%nat)) (c :: rest) caps k = Some res.
Proof.
  intros Hc Hk. change (c :: rest) with ([c] ++ rest). cbn [rmatch].
  rewrite run_exact; [| by simpl; rewrite Hc | simpl; lia | by left].
  apply first_down_top; [simpl; lia | done].
Qed.

Lemma rmatch_cat {R} r1 r2 s caps
    (k : list ascii → list (list ascii) → option R) :
  rmatch (Cat r1 r2) s caps k
  = rmatch r1 s caps (λ s' caps', rmatch r2 s' caps' k).
Proof. reflexivity. Qed.

Lemma sep_not_digit c : is_date_sep c = true → is_digit c = false.
Proof.
  unfold is_date_sep, is_digit. intros H.
  apply andb_false_iff.
  destruct (Nat.leb_spec 48 (code c)); [|by left]. right.
  apply Nat.leb_gt.
  repeat (apply orb_prop in H as [H|H]); apply Nat.eqb_eq in H; lia.
Qed.

(** At the head of [d sep mo sep y suf], the pattern matches with exactly
    these three groups. *)
Lemma date_match_here d s1 mo s2 y suf :
  forallb is_digit d = true → (1 ≤ length d ≤ 2)%nat →
  is_date_sep s1 = true →
  forallb is_digit mo = true → (1 ≤ length mo ≤ 2)%nat →
  is_date_sep s2 = true →
  forallb is_digit y = true → (2 ≤ length y ≤ 4)%nat →
  (length y = 4%nat ∨ ∀ c rest, suf = c :: rest → is_digit c = false) →
  re_match_at DATE_RE (d ++ s1 :: mo ++ s2 :: y ++ suf) = Some [d; mo; y].
Proof.
  intros Hd Ld Hs1 Hmo Lmo Hs2 Hy Ly Hg.
  unfold re_match_at, DATE_RE.
  rewrite rmatch_cat. apply rmatch_grp_cls; [done | lia | | ].
  { right. intros c r [= <- <-]. by apply sep_not_digit. }
  rewrite rmatch_cat. apply rmatch_one; [done|].
  rewrite rmatch_cat. apply rmatch_grp_cls; [done | lia | | ].
  { right. intros c r [= <- <-]. by apply sep_not_digit. }
  rewrite rmatch_cat. apply rmatch_one; [done|].
  apply rmatch_grp_cls; [done | lia | done | done].
Qed.

Lemma re_search_skip r pre s :
  (∀ pre' s', pre ++ s = pre' ++ s' → (length pre' < length pre)%nat →
     ¬ ∃ w rest, s' = w ++ rest ∧ re_lang r w) →
  re_search r (pre ++ s) = re_search r s.
Proof.
  induction pre as [|c pre IH]; intros Hfirst; [done|].
  simpl. destruct (re_match_at r (c :: pre ++ s)) eqn:E.
  - apply re_match_at_sound in E. exfalso.
    apply (Hfirst [] (c :: pre ++ s)); [done | simpl; lia | done].
  - apply IH. intros pre' s' Heq Hlt.
    apply (Hfirst (c :: pre') s'); [simpl; congruence | simpl; lia].
Qed.

(** The search returns the groups of the leftmost match. *)
Lemma search_leftmost text pre d mo y suf :
  leftmost_date text pre d mo y suf →
  re_search DATE_RE (chars text) = Some [d; mo; y].
Proof.
  intros [(s1 & s2 & Heq & Hs1 & Hs2) [Hd Ld] [Hmo Lmo] [Hy Ly] Hg Hfirst].
  rewrite Heq. rewrite re_search_skip.
  - apply re_search_here. by apply date_match_here.
  - intros pre' s' Heq' Hlt. apply (Hfirst pre' s'); [by rewrite Heq | done].
Qed.

Lemma search_none text :
  (∀ pre w rest, chars text = pre ++ w ++ rest → ¬ re_lang DATE_RE w) →
  re_search DATE_RE (chars text) = None.
Proof.
  intros Hno. destruct (re_search DATE_RE (chars text)) eqn:E; [|done].
  apply re_search_sound in E as (pre & w & rest & Heq & Hw).
  by destruct (Hno pre w rest).
Qed.

Lemma py_int_digits w :
  forallb is_digit w = true → w ≠ [] → py_int w = Ok (digits_value w).
Proof.
  intros Hw Hne. unfold py_int. destruct w; [done|]. by rewrite Hw.
Qed.

Lemma py_int_year y :
  forallb is_digit y = true → (2 ≤ length y)%nat →
  py_int (if (length y =? 2)%nat then two_zero ++ y else y) = Ok (year_value y).
Proof.
  intros Hy Ly. unfold year_value.
  destruct (length y =? 2)%nat eqn:E.
  - apply Nat.eqb_eq in E.
    destruct y as [|a [|b [|]]]; simpl in E; try lia.
    unfold py_int. change (forallb is_digit (two_zero ++ [a; b]))
      with (forallb is_digit [a; b]). rewrite Hy.
    unfold digits_value. simpl. f_equal.
    change (digit_val "2") with 2. change (digit_val "0") with 0. lia.
  - apply py_int_digits; [done|]. intros ->. simpl in Ly. lia.
Qed.

Lemma new_datetime_valid y m d :
  valid_date y m d → new_datetime y m d = Ok (mk_datetime y m d).
Proof.
  intros (Hy & Hm & Hd). unfold new_datetime.
  repeat (rewrite (proj2 (Z.leb_le _ _)) by lia). done.
Qed.

Lemma new_datetime_invalid y m d :
  ¬ valid_date y m d → new_datetime y m d = Raise ValueError.
Proof.
  intros Hn. unfold new_datetime.
  destruct (_ && _) eqn:E; [|done]. exfalso. apply Hn.
  repeat (apply andb_prop in E as [E ?]).
  unfold valid_date. repeat split; by apply Z.leb_le.
Qed.

(** [extract_date_from_text] on a text whose leftmost match is known. *)
Lemma extract_leftmost text pre d mo y suf :
  leftmost_date text pre d mo y suf →
  extract_date_from_text text =
    match new_datetime (year_value y) (digits_value mo) (digits_value d) with
    | Ok dt => Some dt
    | Raise _ => None
    end.
Proof.
  intros H. unfold extract_date_from_text. rewrite (search_leftmost _ _ _ _ _ _ H).
  destruct H as [_ [Hd Ld] [Hmo Lmo] [Hy Ly] _ _].
  rewrite py_int_year by (done || lia).
  rewrite (py_int_digits mo) by (done || (intros ->; simpl in *; lia)).
  rewrite (py_int_digits d) by (done || (intros ->; simpl in *; lia)).
  done.
Qed.

Lemma first_down_hit {R} (f : nat → option R) lo n j :
  (lo ≤ j ≤ n)%nat → f j ≠ None → first_down f lo n ≠ None.
Proof.
  intros Hj Hf. induction n as [|n IH]; simpl.
  - assert (j = 0%nat) as -> by lia.
    destruct (0 <? lo)%nat eqn:E; [apply Nat.ltb_lt in E; lia|].
    by destruct (f 0%nat).
  - destruct (S n <? lo)%nat eqn:E; [apply Nat.ltb_lt in E; lia|].
    destruct (f (S n)) eqn:F; [done|].
    apply IH. destruct (decide (j = S n)) as [->|]; [congruence | lia].
Qed.

Lemma run_ge p hi w rest :
  forallb p w = true →
  (∀ h, hi = Some h → (length w ≤ h)%nat) →
  (length w ≤ run p hi (w ++ rest))%nat.
Proof.
  revert hi. induction w as [|a w IH]; intros hi Hw Hh; simpl; [lia|].
  simpl in Hw. apply andb_prop in Hw as [-> Hw].
  destruct hi as [[|h]|].
  - specialize (Hh 0%nat eq_refl). simpl in Hh. lia.
  - apply le_n_S, IH; [done|]. intros h' [= <-].
    specialize (Hh (S h) eq_refl). simpl in Hh. lia.
  - apply le_n_S, IH; [done|]. intros h' [=].
Qed.

(** Where a word of the pattern starts and the continuation accepts what
    follows it, the matcher finds a match (not necessarily this one). *)
Lemma rmatch_complete {R} r w :
  re_lang r w →
  ∀ rest caps (k : list ascii → list (list ascii) → option R),
    (∀ caps', k rest caps' ≠ None) →
    rmatch r (w ++ rest) caps k ≠ None.
Proof.
  induction 1 as [l|p lo hi w Hw Hlo Hhi|r w _ IH|r1 r2 w1 w2 _ IH1 _ IH2];
    intros rest caps k Hk; simpl.
  - rewrite strip_prefix_app. apply Hk.
  - apply (first_down_hit _ lo _ (length w)).
    + split; [done|]. by apply run_ge.
    + rewrite drop_app_length. apply Hk.
  - apply IH. intros caps'. apply Hk.
  - rewrite <- app_assoc. apply IH1. intros caps'. by apply IH2.
Qed.

Lemma re_match_at_none r s :
  re_match_at r s = None → ¬ ∃ w rest, s = w ++ rest ∧ re_lang r w.
Proof.
  intros Hn (w & rest & -> & Hw).
  by apply (rmatch_complete r w Hw rest [] (λ _ caps, Some caps)).
Qed.

Lemma no_match_before_spec r n s :
  no_match_before r n s = true →
  ∀ pre' s', s = pre' ++ s' → (length pre' < n)%nat →
    ¬ ∃ w rest, s' = w ++ rest ∧ re_lang r w.
Proof.
  unfold no_match_before. rewrite forallb_forall.
  intros Hall pre' s' -> Hlt. apply re_match_at_none.
  specialize (Hall (length pre')).
  rewrite drop_app_length in Hall.
  rewrite <- bool_decide_eq_true. apply Hall.
  apply in_seq. lia.
Qed.

(** ** Date extraction *)

(** C6 (amended): the extractor returns nothing when no substring of the
    text matches the pattern; otherwise it takes the leftmost match, whose
    year run has two to four digits and is as long as possible, reads a
    two-digit year in the century 2000, and returns that calendar date when
    it is one and nothing when it is not.  The three examples of the
    specification evaluate as it says. *)
Theorem extract_date_leftmost_match :
  (∀ text,
     (∀ pre w rest, chars text = pre ++ w ++ rest → ¬ re_lang DATE_RE w) →
     extract_date_from_text text = None)
  ∧ (∀ text pre d mo y suf,
       leftmost_date text pre d mo y suf →
       valid_date (year_value y) (digits_value mo) (digits_value d) →
       extract_date_from_text text
       = Some (mk_datetime (year_value y) (digits_value mo) (digits_value d)))
  ∧ (∀ text pre d mo y suf,
       leftmost_date text pre d mo y suf →
       ¬ valid_date (year_value y) (digits_value mo) (digits_value d) →
       extract_date_from_text text = None)
  ∧ extract_date_from_text "FIR No 12, dated 05/03/21, PS X"
    = Some (mk_datetime 2021 3 5)
  ∧ extract_date_from_text "31/02/2023 invalid" = None
  ∧ extract_date_from_text "3-14-2022" = None.
Proof.
  repeat split.
  - intros text Hno. unfold extract_date_from_text. by rewrite search_none.
  - intros text pre d mo y suf H Hv.
    rewrite (extract_leftmost _ _ _ _ _ _ H). by rewrite new_datetime_valid.
  - intros text pre d mo y suf H Hv.
    rewrite (extract_leftmost _ _ _ _ _ _ H). by rewrite new_datetime_invalid.
Qed.

Lemma leftmost_date_example :
  leftmost_date "FIR No 12, dated 05/03/21, PS X"
    (chars "FIR No 12, dated ") (chars "05") (chars "03") (chars "21")
    (chars ", PS X").
Proof.
  split.
  - exists "/"%char, "/"%char. repeat split.
  - split; [reflexivity | simpl; lia].
  - split; [reflexivity | simpl; lia].
  - split; [reflexivity | simpl; lia].
  - right. intros c rest [= <- <-]. reflexivity.
  - intros pre' s' Heq Hlt.
    refine (no_match_before_spec DATE_RE 17 _ _ pre' s' Heq Hlt).
    by vm_compute.
Defined.

Lemma extract_date_leftmost_match_witness :
  leftmost_date "FIR No 12, dated 05/03/21, PS X"
    (chars "FIR No 12, dated ") (chars "05") (chars "03") (chars "21")
    (chars ", PS X")
  ∧ valid_date 2021 3 5
  ∧ extract_date_from_text "FIR No 12, dated 05/03/21, PS X"
    = Some (mk_datetime 2021 3 5).
Proof.
  assert (Hv : valid_date 2021 3 5).
  { unfold valid_date. change (days_in_month 2021 3) with 31. lia. }
  split; [exact leftmost_date_example|]. split; [exact Hv|].
  exact (proj1 (proj2 extract_date_leftmost_match) _ _ _ _ _ _
           leftmost_date_example Hv).
Defined.

(** C6, as stated, fails: on ["1/2/123"] the program reads the three-digit
    year 123, while the first substring with a year of two or four digits
    is ["1/2/12"], the second of February 2012. *)
Lemma extract_date_three_digit_year :
  extract_date_from_text "1/2/123" = Some (mk_datetime 123 2 1)
  ∧ extract_date_2_or_4 "1/2/123" = Some (mk_datetime 2012 2 1)
  ∧ extract_date_from_text "1/2/123" ≠ extract_date_2_or_4 "1/2/123".
Proof. repeat split. by vm_compute. Qed.

(** ** Counting rows *)

Lemma count_of_incr b counts k :
  count_of (incr b counts) k
  = count_of counts k + (if decide (k = b) then 1 else 0).
Proof.
  unfold incr, count_of. destruct (decide (k = b)) as [->|Hne].
  - by rewrite lookup_insert_eq.
  - rewrite lookup_insert_ne by done. lia.
Qed.

Lemma scan_cells_bucket cols counts :
  scan_cells cols counts
  = match row_bucket cols with
    | Some b => incr b counts
    | None => counts
    end.
Proof.
  induction cols as [|cell rest IH]; simpl; [done|].
  unfold cell_bucket.
  destruct (extract_date_from_text cell) as [dt|]; [|done].
  by destruct (in_year_range dt).
Qed.

Lemma row_bucket_skip pre cols :
  Forall (λ c, cell_bucket c = None) pre →
  row_bucket (pre ++ cols) = row_bucket cols.
Proof.
  induction 1 as [|c pre Hc _ IH]; simpl; [done|]. by rewrite Hc.
Qed.

(** C10: within a cell only the leftmost match is examined.  When it is
    not a calendar date the cell yields no date, whatever follows the match
    in the cell, and the scan of the row goes on with the next cells. *)
Theorem first_match_only text pre d mo y suf :
  leftmost_date text pre d mo y suf →
  ¬ valid_date (year_value y) (digits_value mo) (digits_value d) →
  extract_date_from_text text = None
  ∧ ∀ rest counts, scan_cells (text :: rest) counts = scan_cells rest counts.
Proof.
  intros H Hv.
  assert (He : extract_date_from_text text = None).
  { rewrite (extract_leftmost _ _ _ _ _ _ H). by rewrite new_datetime_invalid. }
  split; [done|]. intros rest counts. simpl. by rewrite He.
Qed.

Lemma leftmost_date_invalid_example :
  leftmost_date "31/02/2023 or 01/03/2023"
    [] (chars "31") (chars "02") (chars "2023") (chars " or 01/03/2023").
Proof.
  split.
  - exists "/"%char, "/"%char. repeat split.
  - split; [reflexivity | simpl; lia].
  - split; [reflexivity | simpl; lia].
  - split; [reflexivity | simpl; lia].
  - by left.
  - intros pre' s' _ Hlt. simpl in Hlt. lia.
Defined.

Lemma first_match_only_witness :
  leftmost_date "31/02/2023 or 01/03/2023"
    [] (chars "31") (chars "02") (chars "2023") (chars " or 01/03/2023")
  ∧ ¬ valid_date 2023 2 31
  ∧ extract_date_from_text "31/02/2023 or 01/03/2023" = None
  ∧ scan_cells ["31/02/2023 or 01/03/2023"; "05/03/21"] ∅
    = scan_cells ["05/03/21"] ∅.
Proof.
  assert (Hv : ¬ valid_date 2023 2 31).
  { unfold valid_date. change (days_in_month 2023 2) with 28. lia. }
  split; [exact leftmost_date_invalid_example|]. split; [exact Hv|].
  destruct (first_match_only _ _ _ _ _ _ leftmost_date_invalid_example Hv)
    as [He Hs].
  split; [exact He | exact (Hs ["05/03/21"] ∅)].
Defined.

(** C3 (amended): the scan of a row passes over every cell that has no
    bucket (no match, a match that is no calendar date, or a year out of
    range) and stops at the first cell that has one, whose bucket it
    increments by one; the cells after it are not read.  A row with no such
    cell leaves the counter as it is, so a row adds at most one count. *)
Theorem scan_cells_first_countable cols counts :
  (Forall (λ c, cell_bucket c = None) cols → scan_cells cols counts = counts)
  ∧ (∀ pre cell post b,
       cols = pre ++ cell :: post →
       Forall (λ c, cell_bucket c = None) pre →
       cell_bucket cell = Some b →
       scan_cells cols counts = incr b counts)
  ∧ (scan_cells cols counts = counts
     ∨ ∃ b, scan_cells cols counts = incr b counts
            ∧ ∀ k, count_of (incr b counts) k
                   = count_of counts k + (if decide (k = b) then 1 else 0)).
Proof.
  rewrite scan_cells_bucket. repeat split.
  - intros Hall. replace cols with (cols ++ []) by apply app_nil_r.
    by rewrite row_bucket_skip.
  - intros pre cell post b -> Hpre Hb. rewrite row_bucket_skip by done.
    simpl. by rewrite Hb.
  - destruct (row_bucket cols) as [b|]; [right | by left].
    exists b. split; [done|]. intros k. apply count_of_incr.
Qed.

Lemma scan_cells_first_countable_witness :
  Forall (λ c, cell_bucket c = None) ["FIR 7"; "01/01/2013"]
  ∧ cell_bucket "02/02/2020" = Some (2020, 2)
  ∧ scan_cells ["FIR 7"; "01/01/2013"; "02/02/2020"; "03/03/2021"] ∅
    = incr (2020, 2) ∅.
Proof.
  assert (Hpre : Forall (λ c, cell_bucket c = None) ["FIR 7"; "01/01/2013"]).
  { repeat constructor. }
  split; [exact Hpre|]. split; [reflexivity|].
  exact (proj1 (proj2 (scan_cells_first_countable
                         ["FIR 7"; "01/01/2013"; "02/02/2020"; "03/03/2021"] ∅))
           ["FIR 7"; "01/01/2013"] "02/02/2020" ["03/03/2021"] (2020, 2)
           eq_refl Hpre eq_refl).
Defined.

(** C3, as stated, fails: the first match of the row below is a date of
    2013, out of range; the prose stops there with nothing counted, the
    program goes on and counts the second cell. *)
Lemma scan_cells_goes_past_first_match :
  extract_date_from_text "01/01/2013" = Some (mk_datetime 2013 1 1)
  ∧ in_year_range (mk_datetime 2013 1 1) = false
  ∧ scan_cells ["01/01/2013"; "02/02/2020"] ∅ = {[ (2020, 2) := 1 ]}
  ∧ scan_cells_first_match ["01/01/2013"; "02/02/2020"] ∅ = ∅
  ∧ scan_cells ["01/01/2013"; "02/02/2020"] ∅
    ≠ scan_cells_first_match ["01/01/2013"; "02/02/2020"] ∅.
Proof. repeat split. by vm_compute. Qed.

(** ** De-duplication *)

Section unique.
Context {A K : Type} `{Countable K} (key : A → K).

Lemma foldl_unique_step (l : list A) seen acc :
  (foldl (unique_step key) (seen, acc) l).2 = acc ++ fresh_from key seen l.
Proof.
  revert seen acc. induction l as [|x l IH]; intros seen acc; simpl.
  - by rewrite app_nil_r.
  - unfold unique_step at 2. simpl. destruct (decide (key x ∈ seen)).
    + apply IH.
    + rewrite IH. by rewrite <- app_assoc.
Qed.

Lemma unique_by_fresh (l : list A) : unique_by key l = fresh_from key ∅ l.
Proof. unfold unique_by. by rewrite foldl_unique_step. Qed.

Lemma fresh_from_not_seen seen (l : list A) x :
  x ∈ fresh_from key seen l → (key x ∉ seen) ∧ x ∈ l.
Proof.
  revert seen. induction l as [|a l IH]; intros seen; simpl.
  - by intros ?%elem_of_nil.
  - destruct (decide (key a ∈ seen)).
    + intros Hx. destruct (IH _ Hx). split; [done | by right].
    + intros [Hxa|Hx]%elem_of_cons.
      * subst a. split; [done | by left].
      * destruct (IH _ Hx) as [Hns Hl]. split; [|by right].
        intros Hs. apply Hns, elem_of_union. by right.
Qed.

Lemma fresh_from_NoDup seen (l : list A) : NoDup (key <$> fresh_from key seen l).
Proof.
  revert seen. induction l as [|a l IH]; intros seen; simpl.
  - constructor.
  - destruct (decide (key a ∈ seen)); [apply IH|].
    rewrite fmap_cons. constructor; [|apply IH].
    intros (y & Hy & [Hns _]%fresh_from_not_seen)%list_elem_of_fmap.
    set_solver.
Qed.

Lemma fresh_from_complete seen (l : list A) x :
  x ∈ l → key x ∈ seen ∨ key x ∈ key <$> fresh_from key seen l.
Proof.
  revert seen. induction l as [|a l IH]; intros seen; simpl.
  - by intros ?%elem_of_nil.
  - intros [->|Hx]%elem_of_cons.
    + destruct (decide (key a ∈ seen)); [by left|].
      right. rewrite fmap_cons. by left.
    + destruct (decide (key a ∈ seen)); [by apply IH|].
      destruct (IH ({[key a]} ∪ seen) Hx) as [Hs|Hf].
      * apply elem_of_union in Hs as [->%elem_of_singleton|Hs]; [|by left].
        right. rewrite fmap_cons. by left.
      * right. rewrite fmap_cons. by right.
Qed.

Lemma fresh_from_sublist seen (l : list A) : fresh_from key seen l `sublist_of` l.
Proof.
  revert seen. induction l as [|a l IH]; intros seen; simpl; [done|].
  destruct (decide (key a ∈ seen)).
  - by apply sublist_cons.
  - by apply sublist_skip.
Qed.

(** First-seen order: what precedes a kept element in the output has the
    keys that precede its first occurrence in the input (those already
    in [seen] aside), and no other. *)
Lemma fresh_from_first seen (l : list A) o1 x o2 :
  fresh_from key seen l = o1 ++ x :: o2 →
  ∃ l1 l2, l = l1 ++ x :: l2
           ∧ (key x ∉ key <$> l1)
           ∧ (∀ k, k ∈ key <$> o1 → k ∈ key <$> l1)
           ∧ (∀ k, k ∈ key <$> l1 → k ∈ seen ∨ k ∈ key <$> o1).
Proof.
  revert seen o1. induction l as [|a l IH]; intros seen o1; simpl.
  - by destruct o1.
  - destruct (decide (key a ∈ seen)) as [Hin|Hnin].
    + intros Heq.
      assert (Hxs : key x ∉ seen).
      { eapply (fresh_from_not_seen seen l). rewrite Heq. set_solver. }
      apply IH in Heq as (l1 & l2 & -> & Hx & Ho & Hl).
      exists (a :: l1), l2. split; [done|]. rewrite fmap_cons.
      split; [|split].
      * intros [Hk|Hk]%elem_of_cons; [congruence | done].
      * intros k Hk. right. by apply Ho.
      * intros k [->|Hk]%elem_of_cons; [by left | by apply Hl].
    + destruct o1 as [|b o1]; simpl.
      * intros [= -> _]. exists [], l. split; [done|].
        split; [by intros ?%elem_of_nil|]. split; [done|].
        by intros k ?%elem_of_nil.
      * intros [= -> Heq].
        assert (Hxs : key x ∉ {[key b]} ∪ seen).
        { eapply (fresh_from_not_seen _ l). rewrite Heq. set_solver. }
        apply IH in Heq as (l1 & l2 & -> & Hx & Ho & Hl).
        exists (b :: l1), l2. split; [done|]. rewrite !fmap_cons.
        split; [|split].
        -- intros [Hk|Hk]%elem_of_cons; [set_solver | done].
        -- intros k [->|Hk]%elem_of_cons; [by left | right; by apply Ho].
        -- intros k [->|Hk]%elem_of_cons; [right; by left|].
           destruct (Hl k Hk) as [Hs|Hs]; [|right; by right].
           apply elem_of_union in Hs as [->%elem_of_singleton|Hs];
             [right; by left | by left].
Qed.

(** The four facts about [unique_by] the claims need. *)
Lemma unique_by_NoDup (l : list A) : NoDup (key <$> unique_by key l).
Proof. rewrite unique_by_fresh. apply fresh_from_NoDup. Qed.

Lemma unique_by_sublist (l : list A) : unique_by key l `sublist_of` l.
Proof. rewrite unique_by_fresh. apply fresh_from_sublist. Qed.

Lemma unique_by_keys (l : list A) k :
  k ∈ key <$> unique_by key l ↔ k ∈ key <$> l.
Proof.
  rewrite unique_by_fresh. split.
  - intros (x & -> & [_ Hx]%fresh_from_not_seen)%list_elem_of_fmap.
    apply list_elem_of_fmap. by exists x.
  - intros (x & -> & Hx)%list_elem_of_fmap.
    destruct (fresh_from_complete ∅ l x Hx) as [Hs|Hf]; [set_solver | done].
Qed.

Lemma unique_by_first (l : list A) o1 x o2 :
  unique_by key l = o1 ++ x :: o2 →
  ∃ l1 l2, l = l1 ++ x :: l2
           ∧ (key x ∉ key <$> l1)
           ∧ (∀ k, k ∈ key <$> o1 ↔ k ∈ key <$> l1).
Proof.
  rewrite unique_by_fresh.
  intros (l1 & l2 & -> & Hx & Ho & Hl)%fresh_from_first.
  exists l1, l2. split; [done|]. split; [done|].
  intros k. split; [apply Ho|]. intros Hk.
  destruct (Hl k Hk) as [Hs|Hs]; [set_solver | done].
Qed.
End unique.

Lemma filter_split {A} (P : A → Prop) `{∀ x, Decision (P x)} (l : list A) f1 v f2 :
  filter P l = f1 ++ v :: f2 →
  ∃ l1 l2, l = l1 ++ v :: l2 ∧ filter P l1 = f1 ∧ filter P l2 = f2 ∧ P v.
Proof.
  revert f1. induction l as [|a l IH]; intros f1.
  - by destruct f1.
  - rewrite filter_cons. destruct (decide (P a)) as [Ha|Ha].
    + destruct f1 as [|b f1]; simpl.
      * intros [= -> <-]. exists [], l. by rewrite filter_nil.
      * intros [= -> Heq]. apply IH in Heq as (l1 & l2 & -> & <- & <- & Hv).
        exists (b :: l1), l2. by rewrite filter_cons_True.
    + intros (l1 & l2 & -> & <- & <- & Hv)%IH.
      exists (a :: l1), l2. by rewrite filter_cons_False.
Qed.

(** ** The extractors *)

(** C8: without the select control the list is empty.  With it, the list
    holds the stripped option values other than the empty string and ["0"],
    each once, in the order of their first occurrence: what precedes an
    identifier in the list are the admissible values that precede its first
    occurrence among the options. *)
Theorem parse_ps_options_spec soup :
  (find_by_id "select" PS_SELECT_ID soup = None → parse_ps_options soup = [])
  ∧ ∀ sel, find_by_id "select" PS_SELECT_ID soup = Some sel →
      NoDup (parse_ps_options soup)
      ∧ (∀ v, v ∈ parse_ps_options soup
              ↔ v ∈ option_values sel ∧ v ≠ "" ∧ v ≠ "0")
      ∧ parse_ps_options soup `sublist_of` option_values sel
      ∧ (∀ o1 v o2, parse_ps_options soup = o1 ++ v :: o2 →
           ∃ l1 l2, option_values sel = l1 ++ v :: l2
                    ∧ (v ∉ l1)
                    ∧ ∀ w, w ∈ o1 ↔ w ∈ l1 ∧ w ≠ "" ∧ w ≠ "0").
Proof.
  unfold parse_ps_options. split; [by intros ->|]. intros sel ->.
  fold (option_values sel).
  set (P := λ v : string, v ≠ "" ∧ v ≠ "0").
  set (vals := filter P (option_values sel)).
  split; [|split; [|split]].
  - rewrite <- (list_fmap_id (unique_by id vals)). apply unique_by_NoDup.
  - intros v. rewrite <- (list_fmap_id (unique_by id vals)).
    rewrite unique_by_keys, list_fmap_id. unfold vals.
    rewrite list_elem_of_filter. unfold P. tauto.
  - etrans; [apply unique_by_sublist | apply sublist_filter].
  - intros o1 v o2 (f1 & f2 & Hf & Hv & Ho)%unique_by_first.
    rewrite list_fmap_id in Hv.
    apply filter_split in Hf as (l1 & l2 & Hl & Hf1 & _ & HP).
    exists l1, l2. split; [done|]. split.
    + intros Hin. apply Hv. rewrite <- Hf1. by apply list_elem_of_filter.
    + intros w. specialize (Ho w). rewrite !list_fmap_id in Ho.
      rewrite Ho, <- Hf1, list_elem_of_filter. unfold P. tauto.
Qed.

Lemma parse_ps_options_spec_witness :
  find_by_id "select" PS_SELECT_ID form_page
  = Some (ps_select [ps_option "0" "--Select--"; ps_option " 12 " "Kotwali";
                     Tag "option" ∅ [Text "none"]; ps_option "7" "Sadar";
                     ps_option "12" "Kotwali again"])
  ∧ find_by_id "select" PS_SELECT_ID blank_page = None
  ∧ parse_ps_options blank_page = []
  ∧ NoDup (parse_ps_options form_page)
  ∧ parse_ps_options form_page = ["12"; "7"].
Proof.
  split; [reflexivity|]. split; [reflexivity|].
  split; [exact (proj1 (parse_ps_options_spec blank_page) eq_refl)|].
  split; [|reflexivity].
  exact (proj1 (proj2 (parse_ps_options_spec form_page) _ eq_refl)).
Defined.

Lemma val_total soup id_ :
  val soup id_
  = Ok match find_by_id "input" id_ soup with
       | Some el => default "" (tag_attrs el !! "value")
       | None => ""
       end.
Proof.
  unfold val. destruct (find_by_id "input" id_ soup) as [el|]; [|done].
  unfold has_attr, getitem. case_bool_decide as Hv.
  - by destruct Hv as [v ->].
  - destruct (tag_attrs el !! "value") eqn:E; [|done].
    destruct Hv. by eexists.
Qed.

Lemma val_missing soup id_ : field_missing soup id_ → val soup id_ = Ok "".
Proof.
  rewrite val_total. unfold field_missing.
  destruct (find_by_id "input" id_ soup) as [el|]; [|done]. by intros ->.
Qed.

Lemma val_present soup id_ el v :
  find_by_id "input" id_ soup = Some el → tag_attrs el !! "value" = Some v →
  val soup id_ = Ok v.
Proof. rewrite val_total. by intros -> ->. Qed.

Lemma extract_hidden_fields_lookup soup :
  ∃ hidden, extract_hidden_fields soup = Ok hidden
    ∧ dom hidden = list_to_set HIDDEN_IDS
    ∧ ∀ id_, id_ ∈ HIDDEN_IDS → val soup id_ = Ok (hget hidden id_)
                                ∧ hidden !! id_ = Some (hget hidden id_).
Proof.
  unfold extract_hidden_fields.
  rewrite (val_total soup "__VIEWSTATE"), (val_total soup "__VIEWSTATEGENERATOR"),
    (val_total soup "__EVENTVALIDATION"), (val_total soup "__LASTFOCUS").
  eexists. split; [done|]. split.
  - rewrite !dom_insert_L, dom_empty_L. unfold HIDDEN_IDS.
  rewrite !list_to_set_cons, list_to_set_nil.
  apply set_eq. intros x.
  rewrite !elem_of_union, !elem_of_singleton, elem_of_empty. tauto.
  - intros id_ Hid. unfold hget, HIDDEN_IDS in *.
    repeat (apply elem_of_cons in Hid as [->|Hid]);
      [| | | | by apply elem_of_nil in Hid];
      rewrite val_total; by simplify_map_eq.
Qed.

(** C9: the token extractor never raises; a hidden field that is missing
    reads as the empty string and one that is present as its value.  The
    row extractor returns no rows when the results table or its body is
    absent. *)
Theorem extractors_total soup :
  (∃ hidden, extract_hidden_fields soup = Ok hidden
     ∧ dom hidden = list_to_set HIDDEN_IDS
     ∧ (∀ id_, id_ ∈ HIDDEN_IDS → field_missing soup id_ →
               hidden !! id_ = Some "")
     ∧ (∀ id_ el v, id_ ∈ HIDDEN_IDS →
          find_by_id "input" id_ soup = Some el →
          tag_attrs el !! "value" = Some v →
          hidden !! id_ = Some v))
  ∧ (find_by_id "table" "example" soup = None → parse_fir_rows soup = [])
  ∧ (∀ table, find_by_id "table" "example" soup = Some table →
       find "tbody" table = None → parse_fir_rows soup = []).
Proof.
  split; [|split].
  - destruct (extract_hidden_fields_lookup soup) as (hidden & He & Hdom & Hl).
    exists hidden. split; [done|]. split; [done|]. split.
    + intros id_ Hid Hmiss. destruct (Hl id_ Hid) as [Hv Hh].
      rewrite (val_missing _ _ Hmiss) in Hv. injection Hv as Hv. by rewrite Hh, <- Hv.
    + intros id_ el v Hid Hel Hval. destruct (Hl id_ Hid) as [Hv Hh].
      rewrite (val_present _ _ _ _ Hel Hval) in Hv. injection Hv as Hv.
      by rewrite Hh, <- Hv.
  - unfold parse_fir_rows. by intros ->.
  - unfold parse_fir_rows. by intros table -> ->.
Qed.

Lemma extractors_total_witness :
  field_missing form_page "__LASTFOCUS"
  ∧ field_missing form_page "__EVENTVALIDATION"
  ∧ find_by_id "table" "example" form_page = None
  ∧ find "tbody" (Tag "table" {["id" := "example"]} [tr ["1"; "01/01/2021"]])
    = None
  ∧ (∃ hidden, extract_hidden_fields form_page = Ok hidden
       ∧ hidden !! "__LASTFOCUS" = Some ""
       ∧ hidden !! "__EVENTVALIDATION" = Some ""
       ∧ hidden !! "__VIEWSTATE" = Some "dDwtMTA4")
  ∧ parse_fir_rows form_page = []
  ∧ parse_fir_rows bodyless_page = [].
Proof.
  assert (H1 : field_missing form_page "__LASTFOCUS") by exact I.
  assert (H2 : field_missing form_page "__EVENTVALIDATION") by reflexivity.
  assert (H3 : find_by_id "table" "example" form_page = None) by reflexivity.
  split; [exact H1|]. split; [exact H2|]. split; [exact H3|].
  split; [reflexivity|].
  destruct (extractors_total form_page)
    as [(hidden & He & _ & Hmiss & Hpres) [Htab _]].
  split; [|split].
  - exists hidden. split; [exact He|].
    split; [apply Hmiss; [by apply (list_elem_of_lookup_2 _ 3%nat) | exact H1]|].
    split; [apply Hmiss; [by apply (list_elem_of_lookup_2 _ 2%nat) | exact H2]|].
    eapply Hpres; [by apply (list_elem_of_lookup_2 _ 0%nat) | |]; reflexivity.
  - exact (Htab H3).
  - exact (proj2 (proj2 (extractors_total bodyless_page)) _ eq_refl eq_refl).
Defined.

(** ** The crawl *)

Lemma count_rows_app rows1 rows2 counts :
  count_rows (rows1 ++ rows2) counts = count_rows rows2 (count_rows rows1 counts).
Proof. unfold count_rows. apply foldl_app. Qed.

Lemma count_rows_bucket rows counts b :
  count_of (count_rows rows counts) b = count_of counts b + rows_in_bucket b rows.
Proof.
  unfold rows_in_bucket. revert counts.
  induction rows as [|r rows IH]; intros counts.
  - simpl. lia.
  - change (count_rows (r :: rows) counts)
      with (count_rows rows (scan_cells r counts)).
    rewrite IH, scan_cells_bucket, filter_cons.
    destruct (row_bucket r) as [b'|] eqn:E.
    + rewrite count_of_incr.
      destruct (decide (Some b' = Some b)) as [[= ->]|Hne].
      * rewrite decide_True by done. simpl length. lia.
      * rewrite decide_False by congruence. lia.
    + rewrite decide_False by done. lia.
Qed.

Lemma rows_in_bucket_nonneg b rows : 0 ≤ rows_in_bucket b rows.
Proof. unfold rows_in_bucket. lia. Qed.

Lemma count_rows_mono rows counts k :
  count_of counts k ≤ count_of (count_rows rows counts) k.
Proof. rewrite count_rows_bucket. pose proof (rows_in_bucket_nonneg k rows). lia. Qed.

Section crawl_facts.
Context {St : Type}.
Context (http_get : M St node).
Context (http_post : gmap string string → M St node).

(** [do_post] raises exactly when the request does. *)
Lemma do_post_ok payload st soup st' :
  http_post payload st = (Ok soup, st') →
  ∃ hidden, extract_hidden_fields soup = Ok hidden
            ∧ do_post http_post payload st = (Ok (soup, hidden), st').
Proof.
  intros Hp. destruct (extract_hidden_fields_lookup soup) as (hidden & He & _).
  exists hidden. split; [done|].
  unfold do_post, bind, lift, ret. by rewrite Hp, He.
Qed.

Lemma do_post_raise payload st e st' :
  http_post payload st = (Raise e, st') →
  do_post http_post payload st = (Raise e, st').
Proof. intros Hp. unfold do_post, bind. by rewrite Hp. Qed.

(** The page loop never raises; its counter is the incoming one plus the
    rows of the pages it obtained. *)
Lemma walk_pages_counts d ps actions : ∀ hidden counts st,
  ∃ pages st',
    walk_pages http_post d ps actions hidden counts st
    = (Ok (count_rows (pages ≫= parse_fir_rows) counts), st')
    ∧ Forall (answered http_post) pages.
Proof.
  induction actions as [|[tgt arg] rest IH]; intros hidden counts st.
  - exists [], st. by split.
  - cbn [walk_pages].
    destruct (http_post (payload_page hidden d ps tgt arg) st)
      as [[soup|e] st1] eqn:Hp.
    + destruct (do_post_ok _ _ _ _ Hp) as (h & _ & ->).
      destruct (IH h (count_rows (parse_fir_rows soup) counts) st1)
        as (pages & st' & -> & Hall).
      exists (soup :: pages), st'. split.
      * by rewrite bind_cons, count_rows_app.
      * constructor; [by eexists _, _, _ | done].
    + rewrite (do_post_raise _ _ _ _ Hp). apply IH.
Qed.

(** [fetch_counts_for_ps] either raises or returns the counts of the
    rows of pages the remote side answered with. *)
Lemma fetch_counts_rows d ps st :
  ∃ r st', fetch_counts_for_ps http_get http_post d ps st = (r, st')
    ∧ ((∃ e, r = Raise e)
       ∨ ∃ pages, r = Ok (count_rows (pages ≫= parse_fir_rows) ∅)
                  ∧ Forall (answered http_post) pages).
Proof.
  unfold fetch_counts_for_ps, bind at 1.
  destruct (http_get st) as [[soup|e] st1]; [|eexists _, _; split; eauto].
  destruct (extract_hidden_fields_lookup soup) as (hidden & He & _).
  unfold bind at 1, lift. rewrite He. unfold bind at 1.
  destruct (http_post (payload_district hidden d "radioFIR") st1)
    as [[soup2|e] st2] eqn:Hp1.
  - destruct (do_post_ok _ _ _ _ Hp1) as (hidden2 & _ & ->).
    destruct (http_post (payload_search hidden2 d ps) st2)
      as [[soup_res|e] st3] eqn:Hp2.
    + destruct (do_post_ok _ _ _ _ Hp2) as (hidden_res & _ & ->).
      destruct (walk_pages_counts d ps (ordered_page_actions soup_res)
                  hidden_res (count_rows (parse_fir_rows soup_res) ∅) st3)
        as (pages & st' & -> & Hall).
      eexists _, _. split; [done|]. right. exists (soup_res :: pages).
      split; [by rewrite bind_cons, count_rows_app|].
      constructor; [by eexists _, _, _ | done].
    + rewrite (do_post_raise _ _ _ _ Hp2).
      eexists _, _. split; [done|]. right. exists []. by split.
  - rewrite (do_post_raise _ _ _ _ Hp1). eexists _, _. split; eauto.
Qed.
End crawl_facts.

(** ** Output rows *)

Lemma month_cols_buckets : parse_col <$> MONTH_COLS = Ok <$> BUCKETS.
Proof. by vm_compute. Qed.

Lemma buckets_chronological :
  BUCKETS = (λ i, (START_YEAR + i / 12, i `mod` 12 + 1))
            <$> seqZ 0 ((END_YEAR - START_YEAR + 1) * 12).
Proof. by vm_compute. Qed.

Lemma buckets_length :
  length BUCKETS = Z.to_nat ((END_YEAR - START_YEAR + 1) * 12).
Proof. by vm_compute. Qed.

Lemma month_values_buckets cols counts : ∀ bs,
  parse_col <$> cols = Ok <$> bs →
  month_values cols counts = Ok ((λ b, FInt (count_of counts b)) <$> bs).
Proof.
  induction cols as [|col cols IH]; intros [|[y m] bs]; simpl; try done.
  intros [= -> Hrest]. by rewrite (IH bs Hrest).
Qed.

Lemma zero_counts_buckets : zero_counts = (λ _, FInt 0) <$> BUCKETS.
Proof. by vm_compute. Qed.

Section rows.
Context {St : Type}.
Context (http_get : M St node).
Context (http_post : gmap string string → M St node).

(** [worker_ps] never raises: its row holds the two identifiers and, per
    bucket, the number of rows of the pages obtained that count for it. *)
Lemma worker_ps_row d ps st :
  ∃ pages st',
    worker_ps http_get http_post (d, ps) st
    = (Ok ([FInt d; FStr ps]
           ++ ((λ b, FInt (rows_in_bucket b (pages ≫= parse_fir_rows)))
               <$> BUCKETS)), st')
    ∧ Forall (answered http_post) pages.
Proof.
  destruct (fetch_counts_rows http_get http_post d ps st)
    as (r & st' & Hf & Hr).
  assert (∃ pages, Forall (answered http_post) pages
            ∧ try_except (fetch_counts_for_ps http_get http_post d ps) (ret ∅) st
              = (Ok (count_rows (pages ≫= parse_fir_rows) ∅), st'))
    as (pages & Hall & Ht).
  { unfold try_except. rewrite Hf.
    destruct Hr as [[e ->]|(pages & -> & Hall)].
    - exists []. by split.
    - exists pages. by split. }
  exists pages, st'. split; [|done].
  unfold worker_ps, bind at 1. rewrite Ht.
  unfold bind, lift, ret.
  rewrite (month_values_buckets _ _ _ month_cols_buckets).
  do 3 f_equal. apply list_fmap_ext. intros _ b _.
  f_equal. rewrite count_rows_bucket. unfold count_of. by rewrite lookup_empty.
Qed.

Lemma worker_ps_raise d ps st e st' :
  fetch_counts_for_ps http_get http_post d ps st = (Raise e, st') →
  worker_ps http_get http_post (d, ps) st
  = (Ok ([FInt d; FStr ps] ++ zero_counts), st').
Proof.
  intros Hf. unfold worker_ps, bind at 1, try_except. rewrite Hf.
  unfold ret, bind, lift.
  rewrite (month_values_buckets _ _ _ month_cols_buckets).
  rewrite zero_counts_buckets. do 3 f_equal.
Qed.
End rows.

Section batch.
Context {St : Type}.
Context (http_get : M St node).
Context (http_post : gmap string string → M St node).

Lemma count_row_of_zero d ps : count_row_of d ps [] = [FInt d; FStr ps] ++ zero_counts.
Proof. by rewrite zero_counts_buckets. Qed.

(** One row per task, in order, each the count row of its task. *)
Lemma run_tasks_rows tasks : ∀ st,
  Forall2 (λ t row, ∃ pages, Forall (answered http_post) pages
                             ∧ row = count_row_of t.1 t.2 pages)
    tasks (run_tasks http_get http_post tasks st).1.
Proof.
  induction tasks as [|[d ps] tasks IH]; intros st; cbn [run_tasks];
    [constructor|].
  destruct (worker_ps_row http_get http_post d ps st)
    as (pages & st1 & -> & Hall).
  specialize (IH st1).
  destruct (run_tasks http_get http_post tasks st1) as [rows st2].
  cbn [fst]. constructor; [|done]. by exists pages.
Qed.

(** The rows of a district: the zero row when no station was found,
    else one count row per station. *)
Lemma district_rows_cases d st :
  (((∃ e, (get_ps_for_district http_get http_post d st).1 = Raise e)
    ∨ (get_ps_for_district http_get http_post d st).1 = Ok [])
   ∧ (district_rows http_get http_post d st).1 = [count_row_of d "" []])
  ∨ ∃ ps_list, ps_list ≠ []
      ∧ (get_ps_for_district http_get http_post d st).1 = Ok ps_list
      ∧ Forall2 (λ ps row, ∃ pages, Forall (answered http_post) pages
                                    ∧ row = count_row_of d ps pages)
          ps_list (district_rows http_get http_post d st).1.
Proof.
  unfold district_rows.
  destruct (get_ps_for_district http_get http_post d st)
    as [[[|ps ps_list]|e] st1].
  - left. split; [by right | by rewrite count_row_of_zero].
  - right. exists (ps :: ps_list). split; [done|]. split; [done|].
    pose proof (run_tasks_rows ((λ ps_id, (d, ps_id)) <$> ps :: ps_list) st1) as H.
    apply Forall2_fmap_l in H. exact H.
  - left. split; [left; by exists e | by rewrite count_row_of_zero].
Qed.

Lemma district_rows_all d st :
  (district_rows http_get http_post d st).1 ≠ []
  ∧ Forall (λ row, ∃ ps pages, Forall (answered http_post) pages
                               ∧ row = count_row_of d ps pages)
      (district_rows http_get http_post d st).1.
Proof.
  destruct (district_rows_cases d st) as [[_ ->]|(ps_list & Hne & _ & Hall)].
  - split; [done|]. repeat constructor. by exists "", [].
  - split.
    + intros Hnil. rewrite Hnil in Hall. apply Forall2_nil_inv_r in Hall. done.
    + eapply Forall2_Forall_r; [exact Hall|].
      apply Forall_forall. intros ps _ row (pages & Hp & ->).
      by exists ps, pages.
Qed.

Lemma all_districts_rows ds : ∀ st,
  (∀ row, row ∈ (all_districts http_get http_post ds st).1 →
     ∃ d ps pages, d ∈ ds ∧ Forall (answered http_post) pages
                   ∧ row = count_row_of d ps pages)
  ∧ (∀ d, d ∈ ds →
       ∃ ps pages, count_row_of d ps pages
                   ∈ (all_districts http_get http_post ds st).1).
Proof.
  induction ds as [|d0 ds IH]; intros st; simpl.
  - split; [by intros row ?%elem_of_nil | by intros d ?%elem_of_nil].
  - destruct (district_rows_all d0 st) as [Hne Hall].
    destruct (district_rows http_get http_post d0 st) as [rows st1].
    specialize (IH st1).
    destruct (all_districts http_get http_post ds st1) as [rows' st2].
    simpl in *. destruct IH as [IH1 IH2]. split.
    + intros row [Hr|Hr]%elem_of_app.
      * rewrite Forall_forall in Hall.
        destruct (Hall row Hr) as (ps & pages & Hp & ->).
        exists d0, ps, pages. split; [by left | done].
      * destruct (IH1 row Hr) as (d & ps & pages & Hd & Hp & ->).
        exists d, ps, pages. split; [by right | done].
    + intros d [->|Hd]%elem_of_cons.
      * destruct rows as [|row rows]; [done|].
        apply Forall_cons in Hall as [(ps & pages & _ & ->) _].
        exists ps, pages. apply elem_of_app. left. by left.
      * destruct (IH2 d Hd) as (ps & pages & Hin).
        exists ps, pages. apply elem_of_app. by right.
Qed.
End batch.

Lemma rows_in_bucket_none b rows :
  (∀ r, r ∈ rows → row_bucket r ≠ Some b) → rows_in_bucket b rows = 0.
Proof.
  intros Hno. unfold rows_in_bucket.
  replace (filter (λ r, row_bucket r = Some b) rows) with (@nil (list string));
    [done|].
  symmetry. induction rows as [|r rows IH]; [done|].
  rewrite filter_cons_False by (apply Hno; by left).
  apply IH. intros r' Hr'. apply Hno. by right.
Qed.

Lemma buckets_lookup i :
  0 ≤ i < (END_YEAR - START_YEAR + 1) * 12 →
  BUCKETS !! Z.to_nat i = Some (START_YEAR + i / 12, i `mod` 12 + 1).
Proof.
  intros Hi. rewrite buckets_chronological, list_lookup_fmap.
  rewrite lookup_seqZ_lt by lia. simpl. by rewrite Z2Nat.id by lia.
Qed.

(** C1: every row written after the header holds a district, a station
    identifier and one count per (year, month) bucket, from January of
    [START_YEAR] to December of [END_YEAR] in order; a count is the number
    of ingested rows that fall into its bucket, so it is a non-negative
    integer and zero for a bucket no ingested row falls into. *)
Theorem count_row_shape {St} (http_get : M St node)
    (http_post : gmap string string → M St node) st row :
  row ∈ tail (main http_get http_post st).1 →
  ∃ d ps pages,
    let ingested := pages ≫= parse_fir_rows in
    d ∈ DISTRICT_IDS
    ∧ Forall (answered http_post) pages
    ∧ row = [FInt d; FStr ps]
            ++ ((λ b, FInt (rows_in_bucket b ingested)) <$> BUCKETS)
    ∧ length (drop 2 row) = Z.to_nat ((END_YEAR - START_YEAR + 1) * 12)
    ∧ (∀ i, 0 ≤ i < (END_YEAR - START_YEAR + 1) * 12 →
         row !! (2 + Z.to_nat i)%nat
         = Some (FInt (rows_in_bucket
                         (START_YEAR + i / 12, i `mod` 12 + 1) ingested)))
    ∧ (∀ b, 0 ≤ rows_in_bucket b ingested)
    ∧ (∀ b, (∀ r, r ∈ ingested → row_bucket r ≠ Some b) →
            rows_in_bucket b ingested = 0).
Proof.
  intros Hin.
  assert (Hrow : row ∈ (all_districts http_get http_post DISTRICT_IDS st).1).
  { unfold main in Hin.
    by destruct (all_districts http_get http_post DISTRICT_IDS st). }
  destruct (proj1 (all_districts_rows http_get http_post DISTRICT_IDS st) row Hrow)
    as (d & ps & pages & Hd & Hp & ->).
  exists d, ps, pages. cbn zeta.
  split; [done|]. split; [done|]. split; [done|]. unfold count_row_of.
  split; [|split; [|split]].
  - change (drop 2 ([FInt d; FStr ps] ++ ?l)) with l.
    by rewrite length_fmap, buckets_length.
  - intros i Hi.
    change (([FInt d; FStr ps] ++ ?l) !! (2 + Z.to_nat i)%nat)
      with (l !! Z.to_nat i).
    by rewrite list_lookup_fmap, buckets_lookup.
  - intros b. apply rows_in_bucket_nonneg.
  - intros b. apply rows_in_bucket_none.
Qed.

Lemma count_row_shape_witness :
  count_row_of 1 "12" [chain_page ""; chain_page "Page$2"]
    ∈ tail (main chain_get chain_post ()).1
  ∧ length (drop 2 (count_row_of 1 "12" [chain_page ""; chain_page "Page$2"]))
    = 144%nat.
Proof.
  assert (Hin : count_row_of 1 "12" [chain_page ""; chain_page "Page$2"]
                ∈ tail (main chain_get chain_post ()).1).
  { apply (list_elem_of_lookup_2 _ 0%nat). by vm_compute. }
  split; [exact Hin|].
  destruct (count_row_shape chain_get chain_post () _ Hin)
    as (d & ps & pages & _ & _ & _ & Hlen & _).
  exact Hlen.
Defined.

(** C5: an error of a crawl task ends in the task's zero row; no task
    leaves an error to the pool; a district whose station discovery raises
    or finds nothing gets the single zero row with the empty station; a
    district with stations gets one row per station; and [main] writes at
    least one row for each district, whatever failed. *)
Theorem failures_absorbed {St} (http_get : M St node)
    (http_post : gmap string string → M St node) :
  (∀ d ps st e st',
     fetch_counts_for_ps http_get http_post d ps st = (Raise e, st') →
     worker_ps http_get http_post (d, ps) st
     = (Ok ([FInt d; FStr ps] ++ replicate 144 (FInt 0)), st'))
  ∧ (∀ t st, ∃ row, (worker_ps http_get http_post t st).1 = Ok row)
  ∧ (∀ d st,
       (∃ e, (get_ps_for_district http_get http_post d st).1 = Raise e)
       ∨ (get_ps_for_district http_get http_post d st).1 = Ok [] →
       (district_rows http_get http_post d st).1
       = [[FInt d; FStr ""] ++ replicate 144 (FInt 0)])
  ∧ (∀ d st ps_list,
       (get_ps_for_district http_get http_post d st).1 = Ok ps_list →
       ps_list ≠ [] →
       Forall2 (λ ps row, take 2 row = [FInt d; FStr ps])
         ps_list (district_rows http_get http_post d st).1)
  ∧ (∀ st d, d ∈ DISTRICT_IDS →
       ∃ row, row ∈ tail (main http_get http_post st).1
              ∧ row !! 0%nat = Some (FInt d)).
Proof.
  split; [|split; [|split; [|split]]].
  - intros d ps st e st' Hf. by rewrite (worker_ps_raise _ _ _ _ _ _ _ Hf).
  - intros [d ps] st.
    destruct (worker_ps_row http_get http_post d ps st) as (pages & st' & -> & _).
    by eexists.
  - intros d st Hfail. unfold district_rows.
    destruct (get_ps_for_district http_get http_post d st) as [[[|ps l]|e] st1];
      simpl in *; [done | | done].
    destruct Hfail as [[e [=]]|[=]].
  - intros d st ps_list Hps Hne.
    destruct (district_rows_cases http_get http_post d st)
      as [[[[e He]|He] _]|(l & _ & Hl & Hall)].
    + rewrite Hps in He. done.
    + rewrite Hps in He. by injection He.
    + rewrite Hps in Hl. injection Hl as <-.
      eapply Forall2_impl; [exact Hall|]. by intros ps row (pages & _ & ->).
  - intros st d Hd.
    destruct (proj2 (all_districts_rows http_get http_post DISTRICT_IDS st) d Hd)
      as (ps & pages & Hin).
    exists (count_row_of d ps pages). split; [|done].
    unfold main. by destruct (all_districts http_get http_post DISTRICT_IDS st).
Qed.

Lemma failures_absorbed_witness :
  fetch_counts_for_ps replay (λ _, replay) 3 "12" []
  = (Raise RequestException, [])
  ∧ worker_ps replay (λ _, replay) (3, "12") []
    = (Ok ([FInt 3; FStr "12"] ++ replicate 144 (FInt 0)), [])
  ∧ (get_ps_for_district replay (λ _, replay) 3 []).1 = Raise RequestException
  ∧ (district_rows replay (λ _, replay) 3 []).1
    = [[FInt 3; FStr ""] ++ replicate 144 (FInt 0)]
  ∧ (get_ps_for_district chain_get chain_post 3 ()).1 = Ok ["12"; "7"]
  ∧ Forall2 (λ ps row, take 2 row = [FInt 3; FStr ps])
      ["12"; "7"] (district_rows chain_get chain_post 3 ()).1
  ∧ ∃ row, row ∈ tail (main replay (λ _, replay) []).1
           ∧ row !! 0%nat = Some (FInt 3).
Proof.
  pose proof (failures_absorbed replay (λ _, replay)) as (H1 & _ & H3 & _ & H5).
  pose proof (failures_absorbed chain_get chain_post) as (_ & _ & _ & H4 & _).
  assert (Hf : fetch_counts_for_ps replay (λ _, replay) 3 "12" []
               = (Raise RequestException, [])) by reflexivity.
  assert (Hg : (get_ps_for_district replay (λ _, replay) 3 []).1
               = Raise RequestException) by reflexivity.
  assert (Hc : (get_ps_for_district chain_get chain_post 3 ()).1
               = Ok ["12"; "7"]) by reflexivity.
  split; [exact Hf|]. split; [exact (H1 _ _ _ _ _ Hf)|].
  split; [exact Hg|]. split; [apply H3; left; by eexists|].
  split; [exact Hc|]. split; [by apply (H4 _ _ _ Hc)|].
  apply H5. unfold DISTRICT_IDS. apply elem_of_seqZ. lia.
Defined.

(** ** The requests of a crawl *)

Lemma event_argument_page hidden d ps tgt arg :
  event_argument (POST (payload_page hidden d ps tgt arg)) = Some arg.
Proof.
  unfold event_argument, payload_page. simpl.
  rewrite lookup_insert_ne by done. by rewrite lookup_insert_eq.
Qed.

Lemma event_argument_district hidden d radio :
  event_argument (POST (payload_district hidden d radio)) = Some "".
Proof.
  unfold event_argument, payload_district. simpl.
  rewrite lookup_insert_ne by done. by rewrite lookup_insert_eq.
Qed.

Lemma event_argument_search hidden d ps :
  event_argument (POST (payload_search hidden d ps)) = Some "".
Proof.
  unfold event_argument, payload_search. simpl.
  rewrite lookup_insert_ne by done. by rewrite lookup_insert_eq.
Qed.

Section logs.
Context {St : Type}.
Context (http_get : M St node).
Context (http_post : gmap string string → M St node).

Lemma log_post_eq payload st log :
  log_post http_post payload (st, log)
  = ((http_post payload st).1, ((http_post payload st).2, log ++ [POST payload])).
Proof. unfold log_post. simpl. by destruct (http_post payload st). Qed.

Lemma do_post_log_ok payload st log soup st' hidden :
  http_post payload st = (Ok soup, st') →
  extract_hidden_fields soup = Ok hidden →
  do_post (log_post http_post) payload (st, log)
  = (Ok (soup, hidden), (st', log ++ [POST payload])).
Proof.
  intros Hp He. unfold do_post, bind. rewrite log_post_eq, Hp. simpl.
  unfold lift, ret. by rewrite He.
Qed.

Lemma do_post_log_raise payload st log e st' :
  http_post payload st = (Raise e, st') →
  do_post (log_post http_post) payload (st, log)
  = (Raise e, (st', log ++ [POST payload])).
Proof. intros Hp. unfold do_post, bind. by rewrite log_post_eq, Hp. Qed.

Lemma do_post_ok_hidden payload st soup st' hidden :
  http_post payload st = (Ok soup, st') →
  extract_hidden_fields soup = Ok hidden →
  do_post http_post payload st = (Ok (soup, hidden), st').
Proof.
  intros Hp He. unfold do_post, bind, lift, ret. by rewrite Hp, He.
Qed.

(** The page loop posts once for each action of its list, in order, and
    fails on none. *)
Lemma walk_pages_log d ps actions : ∀ hidden counts st log,
  ∃ counts' st' posts,
    walk_pages (log_post http_post) d ps actions hidden counts (st, log)
    = (Ok counts', (st', log ++ posts))
    ∧ walk_pages http_post d ps actions hidden counts st = (Ok counts', st')
    ∧ omap event_argument posts = actions.*2
    ∧ length posts = length actions.
Proof.
  induction actions as [|[tgt arg] rest IH]; intros hidden counts st log.
  - exists counts, st, []. by rewrite app_nil_r.
  - cbn [walk_pages].
    destruct (http_post (payload_page hidden d ps tgt arg) st)
      as [[soup|e] st1] eqn:Hp.
    + destruct (extract_hidden_fields_lookup soup) as (h & He & _).
      rewrite (do_post_log_ok _ _ _ _ _ _ Hp He).
      rewrite (do_post_ok_hidden _ _ _ _ _ Hp He).
      destruct (IH h (count_rows (parse_fir_rows soup) counts) st1
                  (log ++ [POST (payload_page hidden d ps tgt arg)]))
        as (c & st' & posts & -> & -> & Ha & Hl).
      exists c, st', (POST (payload_page hidden d ps tgt arg) :: posts).
      split; [by rewrite <- app_assoc|]. split; [done|].
      cbn [omap list_omap]. rewrite event_argument_page.
      simpl. by rewrite Ha, Hl.
    + rewrite (do_post_log_raise _ _ _ _ _ Hp).
      rewrite (do_post_raise _ _ _ _ _ Hp).
      destruct (IH hidden counts st1
                  (log ++ [POST (payload_page hidden d ps tgt arg)]))
        as (c & st' & posts & -> & -> & Ha & Hl).
      exists c, st', (POST (payload_page hidden d ps tgt arg) :: posts).
      split; [by rewrite <- app_assoc|]. split; [done|].
      cbn [omap list_omap]. rewrite event_argument_page.
      simpl. by rewrite Ha, Hl.
Qed.
End logs.

Lemma page_turns_app log1 log2 :
  page_turns (log1 ++ log2) = page_turns log1 ++ page_turns log2.
Proof. unfold page_turns. by rewrite omap_app, filter_app. Qed.

Lemma page_turns_prefix hidden hidden2 d ps posts :
  page_turns (GET :: POST (payload_district hidden d "radioFIR")
              :: POST (payload_search hidden2 d ps) :: posts)
  = page_turns posts.
Proof.
  unfold page_turns. cbn [omap list_omap].
  by rewrite event_argument_district, event_argument_search.
Qed.

Lemma ordered_page_actions_elem soup ta :
  ta ∈ ordered_page_actions soup →
  ta ∈ find_postback_actions soup ∧ is_page_action ta = true.
Proof.
  unfold ordered_page_actions. intros Hin.
  eapply elem_of_sublist in Hin; [|apply unique_by_sublist].
  apply list_elem_of_filter in Hin as [Hp Hin]. split; [done|].
  by apply Is_true_true.
Qed.

Lemma page_turns_of_actions soup posts :
  omap event_argument posts = (ordered_page_actions soup).*2 →
  page_turns posts = (ordered_page_actions soup).*2.
Proof.
  unfold page_turns. intros ->.
  pose proof (ordered_page_actions_elem soup) as Hall.
  induction (ordered_page_actions soup) as [|ta l IH]; [done|].
  rewrite fmap_cons, filter_cons_True.
  - f_equal. apply IH. intros ta' Hin. apply Hall. by right.
  - apply (Hall ta). by left.
Qed.

Section fetch_logs.
Context {St : Type}.
Context (http_get : M St node).
Context (http_post : gmap string string → M St node).

(** The requests of a crawl whose first three requests succeed. *)
Lemma fetch_counts_log_ok d ps st soup st1 hidden soup2 st2 hidden2 soup_res st3 :
  http_get st = (Ok soup, st1) →
  extract_hidden_fields soup = Ok hidden →
  http_post (payload_district hidden d "radioFIR") st1 = (Ok soup2, st2) →
  extract_hidden_fields soup2 = Ok hidden2 →
  http_post (payload_search hidden2 d ps) st2 = (Ok soup_res, st3) →
  ∃ counts st' posts,
    fetch_counts_for_ps (log_get http_get) (log_post http_post) d ps (st, [])
    = (Ok counts,
       (st', GET :: POST (payload_district hidden d "radioFIR")
             :: POST (payload_search hidden2 d ps) :: posts))
    ∧ omap event_argument posts = (ordered_page_actions soup_res).*2
    ∧ length posts = length (ordered_page_actions soup_res).
Proof.
  intros Hg He Hp1 He2 Hp2.
  destruct (extract_hidden_fields_lookup soup_res) as (hidden_res & He3 & _).
  unfold fetch_counts_for_ps. unfold bind at 1, log_get at 1. simpl.
  rewrite Hg. unfold bind at 1, lift at 1. rewrite He.
  unfold bind at 1. rewrite (do_post_log_ok http_post _ _ _ _ _ _ Hp1 He2).
  rewrite (do_post_log_ok http_post _ _ _ _ _ _ Hp2 He3).
  destruct (walk_pages_log http_post d ps (ordered_page_actions soup_res)
              hidden_res (count_rows (parse_fir_rows soup_res) ∅) st3
              ((([] ++ [GET]) ++ [POST (payload_district hidden d "radioFIR")])
               ++ [POST (payload_search hidden2 d ps)]))
    as (c & st' & posts & Hw & _ & Ha & Hl).
  exists c, st', posts. split; [|done].
  exact Hw.
Qed.

(** In every crawl the page-turn postbacks are none, or those of the
    ordered actions of the first result page. *)
Lemma fetch_counts_page_turns d ps st :
  page_turns (fetch_counts_for_ps (log_get http_get) (log_post http_post)
                d ps (st, [])).2.2 = []
  ∨ ∃ soup_res, answered http_post soup_res
      ∧ page_turns (fetch_counts_for_ps (log_get http_get) (log_post http_post)
                      d ps (st, [])).2.2
        = (ordered_page_actions soup_res).*2.
Proof.
  destruct (http_get st) as [[soup|e] st1] eqn:Hg.
  - destruct (extract_hidden_fields_lookup soup) as (hidden & He & _).
    destruct (http_post (payload_district hidden d "radioFIR") st1)
      as [[soup2|e] st2] eqn:Hp1.
    + destruct (extract_hidden_fields_lookup soup2) as (hidden2 & He2 & _).
      destruct (http_post (payload_search hidden2 d ps) st2)
        as [[soup_res|e] st3] eqn:Hp2.
      * right. exists soup_res. split; [by eexists _, _, _|].
        destruct (fetch_counts_log_ok _ _ _ _ _ _ _ _ _ _ _ Hg He Hp1 He2 Hp2)
          as (c & st' & posts & -> & Ha & _).
        cbn [snd]. rewrite page_turns_prefix.
        by rewrite (page_turns_of_actions _ _ Ha).
      * left. unfold fetch_counts_for_ps. unfold bind at 1, log_get at 1. simpl.
        rewrite Hg. unfold bind at 1, lift at 1. rewrite He.
        unfold bind at 1. rewrite (do_post_log_ok http_post _ _ _ _ _ _ Hp1 He2).
        rewrite (do_post_log_raise http_post _ _ _ _ _ Hp2). simpl.
        unfold page_turns. cbn [omap list_omap].
        by rewrite event_argument_district, event_argument_search.
    + left. unfold fetch_counts_for_ps. unfold bind at 1, log_get at 1. simpl.
      rewrite Hg. unfold bind at 1, lift at 1. rewrite He.
      unfold bind at 1. rewrite (do_post_log_raise http_post _ _ _ _ _ Hp1). simpl.
      unfold page_turns. cbn [omap list_omap].
      by rewrite event_argument_district.
  - left. unfold fetch_counts_for_ps. unfold bind at 1, log_get at 1. simpl.
    by rewrite Hg.
Qed.
End fetch_logs.

(** C7: the ordered page actions are actions of the page whose argument
    holds the marker; every such argument is among them, once; they keep
    the order of discovery, each argument standing where it was first
    offered; and in any crawl no argument is posted twice. *)
Theorem page_actions_deduplicated soup_res :
  (∀ ta, ta ∈ ordered_page_actions soup_res →
         ta ∈ find_postback_actions soup_res ∧ is_page_action ta = true)
  ∧ (∀ ta, ta ∈ find_postback_actions soup_res → is_page_action ta = true →
           ta.2 ∈ (ordered_page_actions soup_res).*2)
  ∧ NoDup (ordered_page_actions soup_res).*2
  ∧ ordered_page_actions soup_res `sublist_of` find_postback_actions soup_res
  ∧ (∀ o1 ta o2, ordered_page_actions soup_res = o1 ++ ta :: o2 →
       ∃ l1 l2, find_postback_actions soup_res = l1 ++ ta :: l2
         ∧ (∀ ta', ta' ∈ l1 → is_page_action ta' = true → ta'.2 ≠ ta.2)
         ∧ ∀ a, a ∈ o1.*2
                ↔ ∃ ta', ta' ∈ l1 ∧ is_page_action ta' = true ∧ ta'.2 = a)
  ∧ (∀ St (http_get : M St node) (http_post : gmap string string → M St node)
       d ps st,
       NoDup (page_turns (fetch_counts_for_ps (log_get http_get)
                            (log_post http_post) d ps (st, [])).2.2)).
Proof.
  split; [|split; [|split; [|split; [|split]]]].
  - apply ordered_page_actions_elem.
  - intros ta Hin Hp. unfold ordered_page_actions.
    apply unique_by_keys, list_elem_of_fmap. exists ta. split; [done|].
    apply list_elem_of_filter. split; [by apply Is_true_true | done].
  - apply unique_by_NoDup.
  - unfold ordered_page_actions.
    etrans; [apply unique_by_sublist | apply sublist_filter].
  - unfold ordered_page_actions.
    intros o1 ta o2 (f1 & f2 & Hf & Hx & Ho)%unique_by_first.
    apply filter_split in Hf as (l1 & l2 & Hl & Hf1 & _ & _).
    exists l1, l2. split; [done|]. split.
    + intros ta' Hin Hp Heq. apply Hx. rewrite <- Heq, <- Hf1.
      apply list_elem_of_fmap. exists ta'. split; [done|].
      apply list_elem_of_filter. split; [by apply Is_true_true | done].
    + intros a. rewrite Ho, <- Hf1, list_elem_of_fmap. split.
      * intros (ta' & -> & [Hp Hin]%list_elem_of_filter).
        exists ta'. split; [done|]. split; [by apply Is_true_true | done].
      * intros (ta' & Hin & Hp & <-). exists ta'. split; [done|].
        apply list_elem_of_filter. split; [by apply Is_true_true | done].
  - intros St http_get http_post d ps st.
    destruct (fetch_counts_page_turns http_get http_post d ps st)
      as [->|(soup & _ & ->)]; [constructor | apply unique_by_NoDup].
Qed.

Lemma page_actions_deduplicated_witness :
  find_postback_actions dup_page
  = [("gridA", "Page$2"); ("lnk", "Sort$date"); ("gridB", "Page$2");
     ("gridA", "Page$3")]
  ∧ ordered_page_actions dup_page = [("gridA", "Page$2"); ("gridA", "Page$3")]
  ∧ ("gridB", "Page$2") ∈ find_postback_actions dup_page
  ∧ is_page_action ("gridB", "Page$2") = true
  ∧ "Page$2" ∈ (ordered_page_actions dup_page).*2
  ∧ NoDup (ordered_page_actions dup_page).*2.
Proof.
  destruct (page_actions_deduplicated dup_page) as (_ & H2 & H3 & _).
  assert (Hin : ("gridB", "Page$2") ∈ find_postback_actions dup_page).
  { apply (list_elem_of_lookup_2 _ 2%nat). reflexivity. }
  split; [reflexivity|]. split; [reflexivity|]. split; [exact Hin|].
  split; [reflexivity|]. split; [exact (H2 _ Hin eq_refl) | exact H3].
Defined.

(** C2 (amended): when the form, the district postback and the search
    succeed, the walker reads the first result page and then posts exactly
    one page turn for each ordered page action of that first page, in
    order, and stops with a result.  Pages reached later are not scanned
    for page-turn actions, so the number of requests is fixed by the first
    result page. *)
Theorem walker_follows_first_page
    {St} (http_get : M St node) (http_post : gmap string string → M St node)
    d ps st soup st1 hidden soup2 st2 hidden2 soup_res st3 :
  http_get st = (Ok soup, st1) →
  extract_hidden_fields soup = Ok hidden →
  http_post (payload_district hidden d "radioFIR") st1 = (Ok soup2, st2) →
  extract_hidden_fields soup2 = Ok hidden2 →
  http_post (payload_search hidden2 d ps) st2 = (Ok soup_res, st3) →
  ∃ counts st' posts,
    fetch_counts_for_ps (log_get http_get) (log_post http_post) d ps (st, [])
    = (Ok counts,
       (st', GET :: POST (payload_district hidden d "radioFIR")
             :: POST (payload_search hidden2 d ps) :: posts))
    ∧ omap event_argument posts = (ordered_page_actions soup_res).*2
    ∧ length posts = length (ordered_page_actions soup_res)
    ∧ page_turns (fetch_counts_for_ps (log_get http_get) (log_post http_post)
                    d ps (st, [])).2.2
      = (ordered_page_actions soup_res).*2.
Proof.
  intros Hg He Hp1 He2 Hp2.
  destruct (fetch_counts_log_ok _ _ _ _ _ _ _ _ _ _ _ _ _ Hg He Hp1 He2 Hp2)
    as (c & st' & posts & Hf & Ha & Hl).
  exists c, st', posts. split; [done|]. split; [done|]. split; [done|].
  rewrite Hf. cbn [snd]. rewrite page_turns_prefix.
  by rewrite (page_turns_of_actions _ _ Ha).
Qed.

Lemma walker_follows_first_page_witness :
  chain_get () = (Ok blank_page, ())
  ∧ (∃ hidden, extract_hidden_fields blank_page = Ok hidden
       ∧ chain_post (payload_district hidden 1 "radioFIR") () = (Ok form_page, ()))
  ∧ (∃ hidden2, extract_hidden_fields form_page = Ok hidden2
       ∧ chain_post (payload_search hidden2 1 "7") () = (Ok (chain_page ""), ()))
  ∧ page_turns (fetch_counts_for_ps (log_get chain_get) (log_post chain_post)
                  1 "7" ((), [])).2.2
    = (ordered_page_actions (chain_page "")).*2.
Proof.
  destruct (extract_hidden_fields_lookup blank_page) as (hidden & He & _).
  destruct (extract_hidden_fields_lookup form_page) as (hidden2 & He2 & _).
  assert (Hp1 : chain_post (payload_district hidden 1 "radioFIR") ()
                = (Ok form_page, ())).
  { unfold chain_post, payload_district. simpl.
    by rewrite lookup_insert_eq. }
  assert (Hp2 : chain_post (payload_search hidden2 1 "7") ()
                = (Ok (chain_page ""), ())).
  { unfold chain_post, payload_search. simpl.
    by rewrite lookup_insert_eq. }
  split; [reflexivity|].
  split; [by exists hidden|]. split; [by exists hidden2|].
  destruct (walker_follows_first_page chain_get chain_post 1 "7" ()
              _ _ _ _ _ _ _ _ eq_refl He Hp1 He2 Hp2)
    as (c & st' & posts & _ & _ & _ & Hpt).
  exact Hpt.
Defined.

(** C2, as stated, fails: the remote side below has three result pages,
    each offering only the next one and the last offering none; the walker
    turns one page only, so it visits two of the three pages and misses the
    row of March 2021. *)
Lemma walker_stops_after_first_page_links :
  (ordered_page_actions (chain_page "")).*2 = ["Page$2"]
  ∧ (ordered_page_actions (chain_page "Page$2")).*2 = ["Page$3"]
  ∧ ordered_page_actions (chain_page "Page$3") = []
  ∧ page_turns (fetch_counts_for_ps (log_get chain_get) (log_post chain_post)
                  1 "7" ((), [])).2.2 = ["Page$2"]
  ∧ S (length (page_turns (fetch_counts_for_ps (log_get chain_get)
                             (log_post chain_post) 1 "7" ((), [])).2.2))
    ≠ 3%nat
  ∧ (fetch_counts_for_ps (log_get chain_get) (log_post chain_post)
       1 "7" ((), [])).1
    = Ok {[ (2021, 1) := 1; (2021, 2) := 1 ]}.
Proof. repeat split; by vm_compute. Qed.

(** C4 (amended): when a page-turn postback raises, that page is skipped:
    the loop goes on with the remaining actions from the remote state the
    failure left, with the hidden fields and the counter it had; every
    remaining action is still posted; the loop itself never raises and no
    count obtained before is lost. *)
Theorem page_failure_is_skipped
    {St} (http_post : gmap string string → M St node)
    d ps tgt arg rest hidden counts st e st1 :
  http_post (payload_page hidden d ps tgt arg) st = (Raise e, st1) →
  walk_pages http_post d ps ((tgt, arg) :: rest) hidden counts st
  = walk_pages http_post d ps rest hidden counts st1
  ∧ (∃ counts' st',
       walk_pages http_post d ps ((tgt, arg) :: rest) hidden counts st
       = (Ok counts', st')
       ∧ ∀ k, count_of counts k ≤ count_of counts' k)
  ∧ (∀ log, ∃ counts' st' posts,
       walk_pages (log_post http_post) d ps ((tgt, arg) :: rest) hidden counts
         (st, log)
       = (Ok counts', (st', log ++ posts))
       ∧ omap event_argument posts = arg :: rest.*2).
Proof.
  intros Hp. split; [|split].
  - cbn [walk_pages]. by rewrite (do_post_raise _ _ _ _ _ Hp).
  - destruct (walk_pages_counts http_post d ps ((tgt, arg) :: rest)
                hidden counts st) as (pages & st' & Hw & _).
    eexists _, st'. split; [exact Hw|]. intros k. apply count_rows_mono.
  - intros log.
    destruct (walk_pages_log http_post d ps ((tgt, arg) :: rest)
                hidden counts st log) as (c & st' & posts & Hw & _ & Ha & _).
    by exists c, st', posts.
Qed.

Lemma page_failure_is_skipped_witness :
  replay [Raise RequestException; Ok (result_page [["3"; "03/03/2021"]] [])]
  = (Raise RequestException, [Ok (result_page [["3"; "03/03/2021"]] [])])
  ∧ walk_pages (λ _, replay) 1 "7"
      [("ctl00$grid", "Page$2"); ("ctl00$grid", "Page$3")] ∅
      {[ (2021, 1) := 1 ]}
      [Raise RequestException; Ok (result_page [["3"; "03/03/2021"]] [])]
    = walk_pages (λ _, replay) 1 "7" [("ctl00$grid", "Page$3")] ∅
        {[ (2021, 1) := 1 ]}
        [Ok (result_page [["3"; "03/03/2021"]] [])].
Proof.
  split; [reflexivity|].
  exact (proj1 (page_failure_is_skipped (λ _, replay) 1 "7"
                  "ctl00$grid" "Page$2" [("ctl00$grid", "Page$3")] ∅
                  {[ (2021, 1) := 1 ]}
                  [Raise RequestException;
                   Ok (result_page [["3"; "03/03/2021"]] [])]
                  RequestException
                  [Ok (result_page [["3"; "03/03/2021"]] [])] eq_refl)).
Defined.

(** C4, as stated, fails: in the session below the postback of [Page$2]
    raises (it is the fourth request, answered by the fourth entry of the
    script), and the walker still posts [Page$3] and counts its row. *)
Lemma walker_continues_after_failure :
  failing_script !! 3%nat = Some (Raise RequestException)
  ∧ omap event_argument
      (fetch_counts_for_ps (log_get replay) (log_post (λ _, replay))
         1 "7" (failing_script, [])).2.2
    = [""; ""; "Page$2"; "Page$3"]
  ∧ page_turns
      (fetch_counts_for_ps (log_get replay) (log_post (λ _, replay))
         1 "7" (failing_script, [])).2.2
    ≠ ["Page$2"]
  ∧ (fetch_counts_for_ps (log_get replay) (log_post (λ _, replay))
       1 "7" (failing_script, [])).1
    = Ok {[ (2021, 1) := 1; (2021, 3) := 1 ]}.
Proof. repeat split; by vm_compute. Qed.
